(** * Personal Chef: shopping list and calorie calculator

    A shallow embedding of [compute_rows] and [kcal_for_item] from
    [personal_chef_app.py], with the properties of the conversion pipeline
    (aggregation, portion scaling, purchase quantities, cost, calories).

    Numbers: Python floats are read as exact rationals ([Qc], rationals in
    lowest terms, so that equal numbers are equal terms); [people] is an
    [int], read as [Z]. A float division whose divisor is zero raises
    [ZeroDivisionError] in Python: every division of the source goes through
    [fdiv], which returns that error. *)

From Stdlib Require Import QArith Qcanon ZArith List Ascii String.
From stdpp Require Import gmap strings list fin_maps.

Local Open Scope string_scope.
Local Open Scope list_scope.
Local Open Scope Qc_scope.

(** ** Data model *)

(** [@dataclass Ingredient]. *)
Record Ingredient := mkIngredient {
  name : string;
  unitPurchase : string;          (* "kg" | "ml" | "un" *)
  rl : Qc;
  price : option Qc;
  kcal_per_100g : option Qc;
  kcal_per_unit : option Qc;
  density_g_per_ml : option Qc
}.

(** [@dataclass RecipeItem]; the field [unit] of the source is [unit_] here
    ([unit] is a type of the prelude). *)
Record RecipeItem := mkRecipeItem {
  ingredient : string;
  perPersonPL : Qc;
  unit_ : string;                 (* "g" | "ml" | "un" *)
  fc : Qc;
  note : string
}.

(** [@dataclass Recipe]. *)
Record Recipe := mkRecipe {
  recipe_name : string;
  items : list RecipeItem
}.

(** The value stored in [agg] under each key: a dict with eight entries. *)
Record AggRow := mkAggRow {
  Ingrediente : string;
  UnitCompra : string;
  PL_pessoa : Qc;
  Un : string;
  Pessoas : Z;
  RL : Qc;
  FC : Qc;
  Obs : string
}.

(** One dict appended to [rows]: the sixteen columns of the data frame. *)
Record Row := mkRow {
  row_Ingrediente : string;       (* "Ingrediente" *)
  row_Un_compra : string;         (* "Un. compra" *)
  row_PL_pessoa : Qc;             (* "PL/pessoa" *)
  row_Un : string;                (* "Un (g/ml/un)" *)
  row_Pessoas : Z;                (* "Pessoas" *)
  row_PL_total : Qc;              (* "PL total" *)
  row_RL : Qc;                    (* "RL" *)
  row_PB_total : Qc;              (* "PB total" *)
  row_Qtd_compra : Qc;            (* "Qtd p/ compra" *)
  row_Preco : option Qc;          (* "Preço (un. compra)" *)
  row_Custo : option Qc;          (* "Custo" *)
  row_FC : Qc;                    (* "FC" *)
  row_Peso_final_pessoa : Qc;     (* "Peso final/pessoa" *)
  row_Peso_final_total : Qc;      (* "Peso final total" *)
  row_kcal_pessoa : option Qc;    (* "kcal/pessoa (ingrediente)" *)
  row_Obs : string                (* "Obs" *)
}.

(** The [summary] dict. *)
Record Summary := mkSummary {
  kcal_por_pessoa : Qc;
  peso_servido_por_pessoa_g : Qc;
  kcal_por_grama : Qc;
  kcal_por_200g : Qc;
  kcal_totais_receita : Qc
}.

(** ** Errors *)

Inductive result (A : Type) : Type :=
  | Ok (a : A)
  | ZeroDivisionError.
Arguments Ok {A} a.
Arguments ZeroDivisionError {A}.

Definition bind {A B : Type} (m : result A) (k : A → result B) : result B :=
  match m with
  | Ok a => k a
  | ZeroDivisionError => ZeroDivisionError
  end.

Notation "'let*' x ':=' m 'in' k" := (bind m (λ x, k))
  (at level 10, x name, m at level 100, k at level 200, only parsing).

(** [x / y] on floats. *)
Definition fdiv (x y : Qc) : result Qc :=
  if decide (y = 0) then ZeroDivisionError else Ok (x / y).

(** A [for] loop whose body may raise. *)
Fixpoint for_each {S A : Type} (body : S → A → result S) (l : list A) (s : S)
  : result S :=
  match l with
  | [] => Ok s
  | a :: l' => let* s' := body s a in for_each body l' s'
  end.

(** ** The insertion-ordered dict [agg] *)

Section Dict.
Context {V : Type}.

(** [agg.get(k)]. *)
Fixpoint dict_get (k : string) (d : list (string * V)) : option V :=
  match d with
  | [] => None
  | (k', v) :: d' => if decide (k' = k) then Some v else dict_get k d'
  end.

(** In-place change of the value stored under [k]. *)
Fixpoint dict_alter (f : V → V) (k : string) (d : list (string * V))
  : list (string * V) :=
  match d with
  | [] => []
  | (k', v) :: d' =>
      if decide (k' = k) then (k', f v) :: d' else (k', v) :: dict_alter f k d'
  end.

(** [agg.values()], in insertion order. *)
Definition dict_values (d : list (string * V)) : list V := d.*2.
End Dict.

(** ** [ingredient_map] *)

(** [{ing.name: ing for ing in ingredients}]: a later ingredient replaces an
    earlier one of the same name. *)
Definition ingredient_map (ingredients : list Ingredient)
  : gmap string Ingredient :=
  foldl (λ m ing, <[name ing := ing]> m) ∅ ingredients.

(** ** [kcal_for_item] *)

Definition kcal_for_item (ing : Ingredient) (cooked_weight_g : Qc) (unit : string)
  : result (option Qc) :=
  if decide (unit = "un") then
    match kcal_per_unit ing with
    | None => Ok None
    | Some k => Ok (Some (k * cooked_weight_g))
    end
  else
    match kcal_per_100g ing with
    | None => Ok None
    | Some k =>
        let grams :=
          if decide (unit = "ml")
          then cooked_weight_g * default 1 (density_g_per_ml ing)
          else cooked_weight_g in
        let* c := fdiv (k * grams) (Qc_of_Z 100) in Ok (Some c)
    end.

(** ** [compute_rows] *)

(** [f"{it.ingredient}__{it.unit}"]. *)
Definition key_of (ingredient_name unit_name : string) : string :=
  ingredient_name +:+ ("__" +:+ unit_name).

(** [float(it.fc if it.fc else 1.0)]: a zero factor is falsy. *)
Definition fc_or_one (x : Qc) : Qc := if decide (x = 0) then 1 else x.

(** Body of the aggregation loop. *)
Definition agg_step (ing_idx : gmap string Ingredient) (people : Z)
    (agg : list (string * AggRow)) (it : RecipeItem) : list (string * AggRow) :=
  let key := key_of (ingredient it) (unit_ it) in
  let ing := ing_idx !! ingredient it in
  match dict_get key agg with
  | None =>
      agg ++ [(key,
        {| Ingrediente := ingredient it;
           UnitCompra := match ing with Some i => unitPurchase i | None => "kg" end;
           PL_pessoa := perPersonPL it;
           Un := unit_ it;
           Pessoas := people;
           RL := match ing with Some i => rl i | None => 1 end;
           FC := fc_or_one (fc it);
           Obs := note it |})]
  | Some _ =>
      dict_alter
        (λ r, {| Ingrediente := Ingrediente r;
                 UnitCompra := UnitCompra r;
                 PL_pessoa := PL_pessoa r + perPersonPL it;
                 Un := Un r;
                 Pessoas := Pessoas r;
                 RL := RL r;
                 FC := fc_or_one (fc it);
                 Obs := Obs r |})
        key agg
  end.

Definition aggregate (ing_idx : gmap string Ingredient) (people : Z)
    (its : list RecipeItem) : list (string * AggRow) :=
  foldl (agg_step ing_idx people) [] its.

(** The loop over [agg.values()] that adds up the served weight of the groups
    whose unit is not ["un"]. *)
Definition served_total_per_person_g (agg : list (string * AggRow)) : Qc :=
  foldl (λ acc r, if decide (Un r ≠ "un") then acc + PL_pessoa r * FC r else acc)
        0 (dict_values agg).

(** [scale]: [target_served_per_person_g] is falsy when [None] or zero. *)
Definition scale_of (target_served_per_person_g : option Qc) (served : Qc)
  : result Qc :=
  match target_served_per_person_g with
  | Some t =>
      if decide (t ≠ 0 ∧ 0 < t ∧ 0 < served) then fdiv t served else Ok 1
  | None => Ok 1
  end.

(** State of the second loop. *)
Record Loop := mkLoop {
  rows : list Row;
  kcal_person : Qc;
  total_served_weight_per_person : Qc
}.

(** Body of the loop over [agg.items()]. *)
Definition row_step (ing_idx : gmap string Ingredient) (scale : Qc)
    (st : Loop) (kr : string * AggRow) : result Loop :=
  let r := kr.2 in
  let pl_pessoa_scaled := PL_pessoa r * scale in
  let pl_total := pl_pessoa_scaled * Qc_of_Z (Pessoas r) in
  let rl := if decide (0 < RL r) then RL r else 1 in
  let* pb_total := fdiv pl_total rl in
  let* purchase_qty :=
    (if decide (UnitCompra r = "kg" ∧ Un r = "g") then fdiv pb_total (Qc_of_Z 1000)
     else if decide (UnitCompra r = "ml" ∧ Un r = "ml") then Ok pb_total
     else if decide (UnitCompra r = "un" ∧ Un r = "un") then Ok pb_total
     else Ok pb_total) in
  let ing := ing_idx !! Ingrediente r in
  let price := match ing with Some i => price i | None => None end in
  let cost := match price with Some p => Some (purchase_qty * p) | None => None end in
  let per_person_cooked := pl_pessoa_scaled * FC r in
  let total_cooked := pl_total * FC r in
  let* kcal_this :=
    (match ing with
     | Some i =>
         if decide (Un r = "g" ∨ Un r = "ml") then kcal_for_item i per_person_cooked (Un r)
         else if decide (Un r = "un") then kcal_for_item i per_person_cooked "un"
         else Ok None
     | None => Ok None
     end) in
  let kcal_person' :=
    match kcal_this with Some c => kcal_person st + c | None => kcal_person st end in
  let served' :=
    if decide (Un r ≠ "un")
    then total_served_weight_per_person st + per_person_cooked
    else total_served_weight_per_person st in
  Ok {| rows := rows st ++ [
          {| row_Ingrediente := Ingrediente r;
             row_Un_compra := UnitCompra r;
             row_PL_pessoa := pl_pessoa_scaled;
             row_Un := Un r;
             row_Pessoas := Pessoas r;
             row_PL_total := pl_total;
             row_RL := rl;
             row_PB_total := pb_total;
             row_Qtd_compra := purchase_qty;
             row_Preco := price;
             row_Custo := cost;
             row_FC := FC r;
             row_Peso_final_pessoa := per_person_cooked;
             row_Peso_final_total := total_cooked;
             row_kcal_pessoa := kcal_this;
             row_Obs := Obs r |}];
        kcal_person := kcal_person';
        total_served_weight_per_person := served' |}.

(** The [summary] dict, from the totals of the loop. [float(x) if x else 0.0]
    is [x]. The person count is read from the first row of the frame, or is
    [people] when the frame is empty. *)
Definition summarise (people : Z) (st : Loop) : result Summary :=
  let kcal := if decide (kcal_person st = 0) then 0 else kcal_person st in
  let peso :=
    if decide (total_served_weight_per_person st = 0) then 0
    else total_served_weight_per_person st in
  if decide (0 < peso) then
    let* por_grama := fdiv kcal peso in
    Ok {| kcal_por_pessoa := kcal;
          peso_servido_por_pessoa_g := peso;
          kcal_por_grama := por_grama;
          kcal_por_200g := por_grama * Qc_of_Z 200;
          kcal_totais_receita :=
            kcal * Qc_of_Z (match rows st with
                            | r :: _ => row_Pessoas r
                            | [] => people
                            end) |}
  else
    Ok {| kcal_por_pessoa := kcal;
          peso_servido_por_pessoa_g := peso;
          kcal_por_grama := 0;
          kcal_por_200g := 0;
          kcal_totais_receita := 0 |}.

(** [compute_rows]; the session's ingredient list, read by [ingredient_map]
    in the source, is the first argument. *)
Definition compute_rows (ingredients : list Ingredient) (recipe : Recipe)
    (people : Z) (target_served_per_person_g : option Qc)
  : result (list Row * Summary) :=
  let ing_idx := ingredient_map ingredients in
  let agg := aggregate ing_idx people (items recipe) in
  let served_total := served_total_per_person_g agg in
  let* scale := scale_of target_served_per_person_g served_total in
  let* st := for_each (row_step ing_idx scale) agg (mkLoop [] 0 0) in
  let* summary := summarise people st in
  Ok (rows st, summary).

(** ** Starter data *)

(** A decimal literal of the source: [dec 88 100] is [0.88]. *)
Definition dec (n : Z) (d : positive) : Qc := Q2Qc (n # d).

(** An ingredient given as in [SAMPLE_INGREDIENTS]: name, purchase unit,
    yield and price, then the keyword arguments. *)
Definition sample (n u : string) (r p : Qc) (k100 kun dens : option Qc) : Ingredient :=
  {| name := n; unitPurchase := u; rl := r; price := Some p;
     kcal_per_100g := k100; kcal_per_unit := kun; density_g_per_ml := dens |}.

Definition SAMPLE_INGREDIENTS : list Ingredient := [
  sample "Cebola" "kg" (dec 88 100) (dec 690 100) (Some (dec 40 1)) None None;
  sample "Alho" "kg" (dec 92 100) (dec 2400 100) (Some (dec 149 1)) None None;
  sample "Tomate" "kg" (dec 90 100) (dec 850 100) (Some (dec 18 1)) None None;
  sample "Cenoura" "kg" (dec 85 100) (dec 790 100) (Some (dec 41 1)) None None;
  sample "Batata inglesa" "kg" (dec 85 100) (dec 590 100) (Some (dec 77 1)) None None;
  sample "Alface americana" "un" (dec 80 100) (dec 650 100) (Some (dec 15 1)) None None;
  sample "Peito de frango" "kg" (dec 90 100) (dec 2290 100) (Some (dec 165 1)) None None;
  sample "Coxão mole (limpo)" "kg" (dec 80 100) (dec 3490 100) (Some (dec 217 1)) None None;
  sample "Arroz branco (cru)" "kg" (dec 100 100) (dec 620 100) (Some (dec 365 1)) None None;
  sample "Feijão carioca (cru)" "kg" (dec 100 100) (dec 950 100) (Some (dec 333 1)) None None;
  sample "Azeite" "ml" (dec 100 100) (dec 3490 100) (Some (dec 884 1)) None (Some (dec 91 100));
  sample "Ovo" "un" (dec 100 100) (dec 90 100) None (Some (dec 68 1)) None;
  sample "Leite" "ml" (dec 100 100) (dec 550 100) (Some (dec 61 1)) None (Some (dec 103 100));
  sample "Farinha de trigo" "kg" (dec 100 100) (dec 520 100) (Some (dec 364 1)) None None;
  sample "Mussarela" "kg" (dec 98 100) (dec 3800 100) (Some (dec 280 1)) None None;
  sample "Tilápia (filé)" "kg" (dec 95 100) (dec 4200 100) (Some (dec 96 1)) None None
].

(** The two entries of [SAMPLE_RECIPES]. *)
Definition frango_recipe : Recipe :=
  {| recipe_name := "Frango grelhado + arroz + salada";
     items := [
       mkRecipeItem "Peito de frango" (dec 150 1) "g" (dec 88 100) "";
       mkRecipeItem "Arroz branco (cru)" (dec 70 1) "g" (dec 27 10)
                    "Fator de cozimento → peso servido";
       mkRecipeItem "Alface americana" (dec 100 1) "g" (dec 1 1) "";
       mkRecipeItem "Tomate" (dec 60 1) "g" (dec 1 1) "";
       mkRecipeItem "Cebola" (dec 20 1) "g" (dec 9 10) "";
       mkRecipeItem "Azeite" (dec 10 1) "ml" (dec 1 1) "" ] |}.

Definition tilapia_recipe : Recipe :=
  {| recipe_name := "Tilápia assada + batata + salada";
     items := [
       mkRecipeItem "Tilápia (filé)" (dec 160 1) "g" (dec 92 100) "";
       mkRecipeItem "Batata inglesa" (dec 200 1) "g" (dec 85 100) "";
       mkRecipeItem "Alface americana" (dec 80 1) "g" (dec 1 1) "";
       mkRecipeItem "Tomate" (dec 60 1) "g" (dec 1 1) "";
       mkRecipeItem "Cebola" (dec 15 1) "g" (dec 9 10) "";
       mkRecipeItem "Azeite" (dec 10 1) "ml" (dec 1 1) "" ] |}.

Definition SAMPLE_RECIPES : list Recipe := [frango_recipe; tilapia_recipe].

(** A recipe used as a concrete input below: the onion is on two lines with
    different factors and notes, the egg is counted by unit, and the herb is
    not in the catalog. *)
Definition split_recipe : Recipe :=
  {| recipe_name := "Omelete";
     items := [
       mkRecipeItem "Cebola" (dec 20 1) "g" (dec 9 10) "picada";
       mkRecipeItem "Ovo" (dec 2 1) "un" (dec 1 1) "";
       mkRecipeItem "Salsa" (dec 5 1) "g" (dec 1 1) "";
       mkRecipeItem "Cebola" (dec 10 1) "g" (dec 8 10) "em rodelas" ] |}.

(** ** Closed forms of the two loops

    What the loops of [compute_rows] compute, written without the loop state
    and without the error monad; the lemmas below prove that [compute_rows]
    returns these values. *)

Definition sum_Qc (l : list Qc) : Qc := foldr Qcplus 0 l.

(** [rl = r["RL"] if r["RL"] > 0 else 1.0]. *)
Definition eff_rl (x : Qc) : Qc := if decide (0 < x) then x else 1.

(** The price of the catalog ingredient of that name, if both exist. *)
Definition catalog_price (ing_idx : gmap string Ingredient) (n : string) : option Qc :=
  ing_idx !! n ≫= price.

(** Calories of one group as the specification lists them, by consumption
    unit; null for a unit other than un, g and ml, which no branch of
    [compute_rows] sends to [kcal_for_item]. *)
Definition kcal_of (ing : option Ingredient) (unit_name : string) (served : Qc)
  : option Qc :=
  match ing with
  | Some i =>
      if decide (unit_name = "un") then (λ k, k * served) <$> kcal_per_unit i
      else if decide (unit_name = "g") then
        (λ k, k * served / Qc_of_Z 100) <$> kcal_per_100g i
      else if decide (unit_name = "ml") then
        (λ k, k * (served * default 1 (density_g_per_ml i)) / Qc_of_Z 100)
          <$> kcal_per_100g i
      else None
  | None => None
  end.

(** The row appended for the group [r]. *)
Definition row_of (ing_idx : gmap string Ingredient) (scale : Qc) (r : AggRow) : Row :=
  let pl_total := PL_pessoa r * scale * Qc_of_Z (Pessoas r) in
  let pb_total := pl_total / eff_rl (RL r) in
  let qty := if decide (UnitCompra r = "kg" ∧ Un r = "g")
             then pb_total / Qc_of_Z 1000 else pb_total in
  {| row_Ingrediente := Ingrediente r;
     row_Un_compra := UnitCompra r;
     row_PL_pessoa := PL_pessoa r * scale;
     row_Un := Un r;
     row_Pessoas := Pessoas r;
     row_PL_total := pl_total;
     row_RL := eff_rl (RL r);
     row_PB_total := pb_total;
     row_Qtd_compra := qty;
     row_Preco := catalog_price ing_idx (Ingrediente r);
     row_Custo := (λ p, qty * p) <$> catalog_price ing_idx (Ingrediente r);
     row_FC := FC r;
     row_Peso_final_pessoa := PL_pessoa r * scale * FC r;
     row_Peso_final_total := pl_total * FC r;
     row_kcal_pessoa :=
       kcal_of (ing_idx !! Ingrediente r) (Un r) (PL_pessoa r * scale * FC r);
     row_Obs := Obs r |}.

Definition rows_of (ing_idx : gmap string Ingredient) (scale : Qc)
    (agg : list (string * AggRow)) : list Row :=
  row_of ing_idx scale <$> dict_values agg.

(** [kcal_person += kcal_this] when [kcal_this is not None]. *)
Definition add_kcal (acc : Qc) (c : option Qc) : Qc :=
  match c with Some c => acc + c | None => acc end.

(** [total_served_weight_per_person += per_person_cooked] when the unit is
    not ["un"]. *)
Definition add_served (acc : Qc) (row : Row) : Qc :=
  if decide (row_Un row ≠ "un") then acc + row_Peso_final_pessoa row else acc.

(** The rows whose unit is not ["un"]. *)
Definition weighed (rs : list Row) : list Row := filter (λ row, row_Un row ≠ "un") rs.

Definition total_kcal (rs : list Row) : Qc := sum_Qc (omap row_kcal_pessoa rs).

Definition total_served (rs : list Row) : Qc :=
  sum_Qc (row_Peso_final_pessoa <$> weighed rs).

Definition scale_val (target : option Qc) (served : Qc) : Qc :=
  match target with
  | Some t => if decide (t ≠ 0 ∧ 0 < t ∧ 0 < served) then t / served else 1
  | None => 1
  end.

Definition summary_of (people : Z) (rs : list Row) (kcal peso : Qc) : Summary :=
  if decide (0 < peso) then
    {| kcal_por_pessoa := kcal;
       peso_servido_por_pessoa_g := peso;
       kcal_por_grama := kcal / peso;
       kcal_por_200g := kcal / peso * Qc_of_Z 200;
       kcal_totais_receita :=
         kcal * Qc_of_Z (match rs with r :: _ => row_Pessoas r | [] => people end) |}
  else
    {| kcal_por_pessoa := kcal;
       peso_servido_por_pessoa_g := peso;
       kcal_por_grama := 0;
       kcal_por_200g := 0;
       kcal_totais_receita := 0 |}.

(** ** The specification's reading of the pipeline *)

(** The consumption units of the data model. *)
Definition valid_unit (u : string) : Prop := u = "g" ∨ u = "ml" ∨ u = "un".

Definition valid_units (its : list RecipeItem) : Prop :=
  Forall (λ it, valid_unit (unit_ it)) its.

(** The pair a recipe line is grouped by, and the dict key of a pair. *)
Definition pair_of (it : RecipeItem) : string * string := (ingredient it, unit_ it).

Definition key_of_pair (k : string * string) : string := key_of k.1 k.2.

(** The distinct elements of a list, each at the place of its first
    occurrence. *)
Fixpoint first_occurrences {A : Type} `{EqDecision A} (l : list A) : list A :=
  match l with
  | [] => []
  | x :: l' => x :: filter (λ y, y ≠ x) (first_occurrences l')
  end.

(** The lines of a recipe that carry the pair [k], in recipe order. *)
Definition lines_of (k : string * string) (its : list RecipeItem) : list RecipeItem :=
  filter (λ it, pair_of it = k) its.

(** The group of the pair [k]: net weights summed, the cooking factor of the
    last line (a zero factor read as 1.0), the note of the first line; the
    purchase unit and the yield come from the catalog. *)
Definition group_of (ing_idx : gmap string Ingredient) (people : Z)
    (its : list RecipeItem) (k : string * string) : AggRow :=
  let ls := lines_of k its in
  {| Ingrediente := k.1;
     UnitCompra := match ing_idx !! k.1 with Some i => unitPurchase i | None => "kg" end;
     PL_pessoa := sum_Qc (perPersonPL <$> ls);
     Un := k.2;
     Pessoas := people;
     RL := match ing_idx !! k.1 with Some i => rl i | None => 1 end;
     FC := default 1 (fc_or_one ∘ fc <$> last ls);
     Obs := default "" (note <$> head ls) |}.

(** The aggregation claim as worded: one output row per pair, in
    first-occurrence order, with the cooking factor and the note of the last
    line of the pair. *)
Definition aggregates_last_wins (ingredients : list Ingredient) (recipe : Recipe)
    (people : Z) (target : option Qc) : Prop :=
  ∃ rs s,
    compute_rows ingredients recipe people target = Ok (rs, s) ∧
    Forall2 (λ k row,
               let ls := lines_of k (items recipe) in
               row_Ingrediente row = k.1 ∧ row_Un row = k.2 ∧
               row_FC row = default 1 (fc <$> last ls) ∧
               row_Obs row = default "" (note <$> last ls))
            (first_occurrences (pair_of <$> items recipe)) rs.

(** [currentServedPerPerson]: served weight of the gram and milliliter
    groups before scaling. *)
Definition current_served_per_person (groups : list AggRow) : Qc :=
  sum_Qc ((λ g, PL_pessoa g * FC g) <$> filter (λ g, Un g = "g" ∨ Un g = "ml") groups).

(** The scale factor as the specification words it. *)
Definition spec_scale (target : option Qc) (groups : list AggRow) : Qc :=
  match target with
  | Some t =>
      if decide (0 < t ∧ 0 < current_served_per_person groups)
      then t / current_served_per_person groups
      else 1
  | None => 1
  end.

(** [purchaseQuantity] as the specification lists it, case by case. *)
Definition spec_purchase_quantity (purchase_unit consumption_unit : string)
    (gross : Qc) : Qc :=
  if decide (purchase_unit = "kg" ∧ consumption_unit = "g") then gross / Qc_of_Z 1000
  else if decide (purchase_unit = "ml" ∧ consumption_unit = "ml") then gross
  else if decide (purchase_unit = "un" ∧ consumption_unit = "un") then gross
  else gross.

(** A row and a summary with every total doubled (and the person count with
    them), the per-person fields kept. *)
Definition double_totals (row : Row) : Row :=
  {| row_Ingrediente := row_Ingrediente row;
     row_Un_compra := row_Un_compra row;
     row_PL_pessoa := row_PL_pessoa row;
     row_Un := row_Un row;
     row_Pessoas := 2 * row_Pessoas row;
     row_PL_total := 2 * row_PL_total row;
     row_RL := row_RL row;
     row_PB_total := 2 * row_PB_total row;
     row_Qtd_compra := 2 * row_Qtd_compra row;
     row_Preco := row_Preco row;
     row_Custo := (λ c, 2 * c) <$> row_Custo row;
     row_FC := row_FC row;
     row_Peso_final_pessoa := row_Peso_final_pessoa row;
     row_Peso_final_total := 2 * row_Peso_final_total row;
     row_kcal_pessoa := row_kcal_pessoa row;
     row_Obs := row_Obs row |}.

Definition double_recipe_total (s : Summary) : Summary :=
  {| kcal_por_pessoa := kcal_por_pessoa s;
     peso_servido_por_pessoa_g := peso_servido_por_pessoa_g s;
     kcal_por_grama := kcal_por_grama s;
     kcal_por_200g := kcal_por_200g s;
     kcal_totais_receita := 2 * kcal_totais_receita s |}.

(** The group [r] computed for another person count. *)
Definition with_people (p : Z) (r : AggRow) : AggRow :=
  {| Ingrediente := Ingrediente r;
     UnitCompra := UnitCompra r;
     PL_pessoa := PL_pessoa r;
     Un := Un r;
     Pessoas := p;
     RL := RL r;
     FC := FC r;
     Obs := Obs r |}.

(** The last character of [s], or [d] when [s] is empty. *)
Fixpoint last_ascii (s : string) (d : ascii) : ascii :=
  match s with
  | EmptyString => d
  | String a s' => last_ascii s' a
  end.

(** The numbers of a row as fractions in lowest terms: net total, gross
    total, purchase quantity, cost, served weight per person, calories. *)
Definition row_numbers (row : Row) : Q * Q * Q * option Q * Q * option Q :=
  (this (row_PL_total row), this (row_PB_total row), this (row_Qtd_compra row),
   this <$> row_Custo row, this (row_Peso_final_pessoa row),
   this <$> row_kcal_pessoa row).

(** The rows of a result, or no rows when the computation raised. *)
Definition rows_of_result (r : result (list Row * Summary)) : list Row :=
  match r with
  | Ok (rs, _) => rs
  | ZeroDivisionError => []
  end.

(** The one-line recipe of the worked example: 150 g of chicken breast. *)
Definition chicken_only : Recipe :=
  {| recipe_name := "Peito de frango";
     items := [mkRecipeItem "Peito de frango" (dec 150 1) "g" (dec 88 100) ""] |}.

(** ** Further code of the script and operations on its results *)

(** [st.session_state]: each of the five keys is absent or holds a value; a
    target that is present may hold [None]. *)
Record SessionState := mkSessionState {
  ss_ingredients : option (list Ingredient);
  ss_recipes : option (list Recipe);
  ss_selected_recipe : option string;
  ss_people : option Z;
  ss_target_served_per_person_g : option (option Qc)
}.

(** [init_state]: every key that is not in the session state gets its
    default; the default of [selected_recipe] is read from the recipes then in
    the state. *)
Definition init_state (st : SessionState) : SessionState :=
  let ingredients :=
    match ss_ingredients st with Some v => v | None => SAMPLE_INGREDIENTS end in
  let recipes :=
    match ss_recipes st with Some v => v | None => SAMPLE_RECIPES end in
  let selected_recipe :=
    match ss_selected_recipe st with
    | Some v => v
    | None => match recipes with r :: _ => recipe_name r | [] => "" end
    end in
  let people := match ss_people st with Some v => v | None => 4%Z end in
  let target :=
    match ss_target_served_per_person_g st with Some v => v | None => None end in
  {| ss_ingredients := Some ingredients;
     ss_recipes := Some recipes;
     ss_selected_recipe := Some selected_recipe;
     ss_people := Some people;
     ss_target_served_per_person_g := Some target |}.


(** The dict key of a recipe line. *)
Definition item_key (it : RecipeItem) : string := key_of (ingredient it) (unit_ it).

(** The line [it] with another net weight per person. *)
Definition with_weight (w : Qc) (it : RecipeItem) : RecipeItem :=
  {| ingredient := ingredient it;
     perPersonPL := w;
     unit_ := unit_ it;
     fc := fc it;
     note := note it |}.



(** A row with every quantity, cost and calorie value multiplied by [c]; the
    yield, the price, the cooking factor and the person count are kept. *)
Definition portion_times (c : Qc) (row : Row) : Row :=
  {| row_Ingrediente := row_Ingrediente row;
     row_Un_compra := row_Un_compra row;
     row_PL_pessoa := c * row_PL_pessoa row;
     row_Un := row_Un row;
     row_Pessoas := row_Pessoas row;
     row_PL_total := c * row_PL_total row;
     row_RL := row_RL row;
     row_PB_total := c * row_PB_total row;
     row_Qtd_compra := c * row_Qtd_compra row;
     row_Preco := row_Preco row;
     row_Custo := (λ x, c * x) <$> row_Custo row;
     row_FC := row_FC row;
     row_Peso_final_pessoa := c * row_Peso_final_pessoa row;
     row_Peso_final_total := c * row_Peso_final_total row;
     row_kcal_pessoa := (λ x, c * x) <$> row_kcal_pessoa row;
     row_Obs := row_Obs row |}.

(** [d[k] = v] on an insertion-ordered dict: the value is replaced in place
    when the key is present, the entry is added at the end otherwise. *)
Definition dict_set {V : Type} (k : string) (v : V) (d : list (string * V))
  : list (string * V) :=
  match dict_get k d with
  | Some _ => dict_alter (λ _, v) k d
  | None => d ++ [(k, v)]
  end.

(** The dict left by [d.pop(k, None)]. *)
Fixpoint dict_remove {V : Type} (k : string) (d : list (string * V))
  : list (string * V) :=
  match d with
  | [] => []
  | (k', v) :: d' => if decide (k' = k) then d' else (k', v) :: dict_remove k d'
  end.

(** [recipes_map = {r.name: r for r in st.session_state.recipes}]. *)
Definition recipes_map (recipes : list Recipe) : list (string * Recipe) :=
  foldl (λ m r, dict_set (recipe_name r) r m) [] recipes.

(** What the button "Salvar nome" does to the recipe list and to the selected
    name. [strip] stands for [str.strip], which is not code of the repository:
    the properties below hold for every such function. Nothing changes when
    the stripped name is empty or the selected name is not a key of
    [recipes_map]; otherwise the selected recipe is popped, renamed, stored
    under its new name, and the list becomes the values of the dict. *)
Definition save_name (strip : string → string) (recipes : list Recipe)
    (selected_recipe new_name : string) : list Recipe * string :=
  if decide (strip new_name = "") then (recipes, selected_recipe)
  else
    match dict_get selected_recipe (recipes_map recipes) with
    | None => (recipes, selected_recipe)
    | Some r =>
        let r' := {| recipe_name := strip new_name; items := items r |} in
        (dict_values (dict_set (recipe_name r') r'
                        (dict_remove selected_recipe (recipes_map recipes))),
         recipe_name r')
    end.

(** * Lemmas *)

(** ** Worked examples *)

(** 150 g of chicken breast for one person, no target: net total 150, gross
    total 150/0.90, purchase quantity 1/6 kg, cost 229/60, served weight 132,
    calories 217.8. *)
Example chicken_only_row :
  row_numbers <$> rows_of_result (compute_rows SAMPLE_INGREDIENTS chicken_only 1 None) =
  [(150 # 1, 500 # 3, 1 # 6, Some (229 # 60), 132 # 1, Some (1089 # 5))]%Q.
Proof. vm_compute. reflexivity. Qed.

(** The onion of [split_recipe] is one row with the factor of its last line
    and the note of its first line; the egg and the unknown herb follow in
    recipe order. *)
Example split_recipe_rows :
  (λ row, (row_Ingrediente row, this (row_PL_pessoa row), this (row_FC row), row_Obs row))
    <$> rows_of_result (compute_rows SAMPLE_INGREDIENTS split_recipe 1 None) =
  [("Cebola", 30 # 1, 4 # 5, "picada"); ("Ovo", 2 # 1, 1 # 1, ""); ("Salsa", 5 # 1, 1 # 1, "")]%Q.
Proof. vm_compute. reflexivity. Qed.

(** ** Divisions that do not raise *)

Lemma Qc_pos_neq0 (x : Qc) : 0 < x → x ≠ 0.
Proof. intros H ->. by apply (Qclt_not_eq 0 0). Qed.

Lemma Qc_of_Z_neq0 (z : Z) : z ≠ 0%Z → Qc_of_Z z ≠ 0.
Proof.
  intros Hz H. apply (f_equal this) in H. simpl in H.
  injection H as H. done.
Qed.

Lemma fdiv_ok (x y : Qc) : y ≠ 0 → fdiv x y = Ok (x / y).
Proof. intros H. unfold fdiv. by rewrite decide_False. Qed.

Lemma eff_rl_pos (x : Qc) : 0 < eff_rl x.
Proof. unfold eff_rl. case_decide; done. Qed.

Lemma eff_rl_neq0 (x : Qc) : eff_rl x ≠ 0.
Proof. apply Qc_pos_neq0, eff_rl_pos. Qed.

Lemma kcal_for_item_ok (i : Ingredient) (w : Qc) (u : string) :
  kcal_for_item i w u =
  Ok (if decide (u = "un") then (λ k, k * w) <$> kcal_per_unit i
      else (λ k, k * (if decide (u = "ml") then w * default 1 (density_g_per_ml i) else w)
                 / Qc_of_Z 100) <$> kcal_per_100g i).
Proof.
  unfold kcal_for_item. case_decide.
  - by destruct (kcal_per_unit i).
  - destruct (kcal_per_100g i); [|done].
    by rewrite fdiv_ok by (by apply Qc_of_Z_neq0).
Qed.

(** ** The loop over the groups and the summary *)

Lemma row_step_ok ing_idx scale st kr :
  row_step ing_idx scale st kr =
  Ok {| rows := rows st ++ [row_of ing_idx scale kr.2];
        kcal_person := add_kcal (kcal_person st) (row_kcal_pessoa (row_of ing_idx scale kr.2));
        total_served_weight_per_person :=
          add_served (total_served_weight_per_person st) (row_of ing_idx scale kr.2) |}.
Proof.
  destruct kr as [k r]. unfold row_step. cbn [snd].
  change (if decide (0 < RL r) then RL r else 1) with (eff_rl (RL r)).
  rewrite fdiv_ok by apply eff_rl_neq0. cbn [bind].
  assert (Hq : (if decide (UnitCompra r = "kg" ∧ Un r = "g")
                then fdiv (PL_pessoa r * scale * Qc_of_Z (Pessoas r) / eff_rl (RL r)) (Qc_of_Z 1000)
                else if decide (UnitCompra r = "ml" ∧ Un r = "ml")
                     then Ok (PL_pessoa r * scale * Qc_of_Z (Pessoas r) / eff_rl (RL r))
                     else if decide (UnitCompra r = "un" ∧ Un r = "un")
                          then Ok (PL_pessoa r * scale * Qc_of_Z (Pessoas r) / eff_rl (RL r))
                          else Ok (PL_pessoa r * scale * Qc_of_Z (Pessoas r) / eff_rl (RL r)))
               = Ok (row_Qtd_compra (row_of ing_idx scale r))).
  { cbn [row_of row_Qtd_compra]. repeat case_decide; try done;
      try by rewrite fdiv_ok by (by apply Qc_of_Z_neq0). }
  rewrite Hq. cbn [bind].
  assert (Hk : match ing_idx !! Ingrediente r with
               | Some i =>
                   if decide (Un r = "g" ∨ Un r = "ml")
                   then kcal_for_item i (PL_pessoa r * scale * FC r) (Un r)
                   else if decide (Un r = "un")
                        then kcal_for_item i (PL_pessoa r * scale * FC r) "un"
                        else Ok None
               | None => Ok None
               end = Ok (row_kcal_pessoa (row_of ing_idx scale r))).
  { cbn [row_of row_kcal_pessoa]. unfold kcal_of.
    destruct (ing_idx !! Ingrediente r) as [i|]; [|done].
    rewrite !kcal_for_item_ok.
    destruct (decide (Un r = "un")) as [Hu|Hu]; [by rewrite Hu|].
    destruct (decide (Un r = "g")) as [Hg|Hg]; [by rewrite Hg|].
    destruct (decide (Un r = "ml")) as [Hm|Hm]; [by rewrite Hm|].
    by rewrite decide_False by (by intros [|]). }
  rewrite Hk. cbn [bind]. f_equal.
Qed.

Lemma for_each_row_step ing_idx scale agg st :
  for_each (row_step ing_idx scale) agg st =
  Ok {| rows := rows st ++ rows_of ing_idx scale agg;
        kcal_person :=
          foldl add_kcal (kcal_person st) (row_kcal_pessoa <$> rows_of ing_idx scale agg);
        total_served_weight_per_person :=
          foldl add_served (total_served_weight_per_person st) (rows_of ing_idx scale agg) |}.
Proof.
  revert st. induction agg as [|kr agg IH]; intros st.
  - destruct st. cbn. by rewrite app_nil_r.
  - cbn [for_each]. rewrite row_step_ok. cbn [bind]. rewrite IH. cbn.
    by rewrite <-app_assoc.
Qed.

Lemma foldl_add_kcal (a : Qc) (l : list (option Qc)) :
  foldl add_kcal a l = a + sum_Qc (omap id l).
Proof.
  revert a. induction l as [|[c|] l IH]; intros a; cbn.
  - by rewrite Qcplus_0_r.
  - rewrite IH. unfold sum_Qc. by rewrite Qcplus_assoc.
  - apply IH.
Qed.

Lemma foldl_add_served (a : Qc) (rs : list Row) :
  foldl add_served a rs = a + sum_Qc (row_Peso_final_pessoa <$> weighed rs).
Proof.
  revert a. induction rs as [|row rs IH]; intros a.
  - cbn. by rewrite Qcplus_0_r.
  - cbn [foldl]. rewrite IH. unfold add_served, weighed. rewrite filter_cons.
    case_decide; [|done]. cbn. by rewrite Qcplus_assoc.
Qed.

Lemma served_total_sum agg :
  served_total_per_person_g agg =
  sum_Qc ((λ r, PL_pessoa r * FC r) <$> filter (λ r, Un r ≠ "un") (dict_values agg)).
Proof.
  unfold served_total_per_person_g.
  enough (∀ (l : list AggRow) a,
    foldl (λ acc r, if decide (Un r ≠ "un") then acc + PL_pessoa r * FC r else acc) a l
    = a + sum_Qc ((λ r, PL_pessoa r * FC r) <$> filter (λ r, Un r ≠ "un") l)) as H.
  { by rewrite H, Qcplus_0_l. }
  induction l as [|r l IH]; intros a.
  - cbn. by rewrite Qcplus_0_r.
  - cbn [foldl]. rewrite IH, filter_cons. case_decide; [|done]. cbn. by rewrite Qcplus_assoc.
Qed.

Lemma scale_of_ok target served : scale_of target served = Ok (scale_val target served).
Proof.
  unfold scale_of, scale_val. destruct target as [t|]; [|done].
  case_decide as H; [|done]. apply fdiv_ok, Qc_pos_neq0, H.
Qed.

Lemma falsy_float (x : Qc) : (if decide (x = 0) then 0 else x) = x.
Proof. by case_decide. Qed.

Lemma summarise_ok people st :
  summarise people st =
  Ok (summary_of people (rows st) (kcal_person st) (total_served_weight_per_person st)).
Proof.
  unfold summarise, summary_of. rewrite !falsy_float.
  case_decide as H; [|done]. by rewrite fdiv_ok by (by apply Qc_pos_neq0).
Qed.

Lemma compute_rows_ok ingredients recipe people target :
  let ing_idx := ingredient_map ingredients in
  let agg := aggregate ing_idx people (items recipe) in
  let rs := rows_of ing_idx (scale_val target (served_total_per_person_g agg)) agg in
  compute_rows ingredients recipe people target =
  Ok (rs, summary_of people rs (total_kcal rs) (total_served rs)).
Proof.
  intros ing_idx agg rs. unfold compute_rows.
  rewrite scale_of_ok. cbn [bind]. rewrite for_each_row_step. cbn [bind].
  rewrite summarise_ok. cbn.
  fold ing_idx agg rs. rewrite foldl_add_kcal, foldl_add_served, !Qcplus_0_l.
  unfold total_kcal, total_served.
  assert (∀ l : list Row, omap id (row_kcal_pessoa <$> l) = omap row_kcal_pessoa l) as ->; [|done].
  induction l as [|r l IH]; [done|]. cbn. destruct (row_kcal_pessoa r); cbn; by rewrite IH.
Qed.


(** ** The dict key determines the (ingredient, unit) pair *)

Lemma last_ascii_app (s t : string) (a d : ascii) :
  last_ascii (s +:+ String a t) d = last_ascii t a.
Proof. revert d. induction s as [|b s IH]; intros d; [done|]. cbn. apply IH. Qed.

Lemma string_length_app (s t : string) :
  String.length (s +:+ t) = (String.length s + String.length t)%nat.
Proof. induction s as [|a s IH]; [done|]. simpl. by rewrite IH. Qed.

Lemma string_app_inj_r (s1 s2 t : string) : s1 +:+ t = s2 +:+ t → s1 = s2.
Proof.
  revert s2. induction s1 as [|a s1 IH]; intros [|b s2] H; [done| | |].
  - apply (f_equal String.length) in H.
    rewrite !string_length_app in H. simpl in H. lia.
  - apply (f_equal String.length) in H.
    rewrite !string_length_app in H. simpl in H. lia.
  - simpl in H. injection H as -> H. f_equal. by apply IH.
Qed.

Lemma last_ascii_key_of (i u : string) :
  last_ascii (key_of i u) "x" = last_ascii u "_".
Proof.
  unfold key_of. change ("__" +:+ u) with (String "_" (String "_" u)).
  by rewrite last_ascii_app.
Qed.

Lemma key_of_inj (i1 u1 i2 u2 : string) :
  valid_unit u1 → valid_unit u2 → key_of i1 u1 = key_of i2 u2 → i1 = i2 ∧ u1 = u2.
Proof.
  intros H1 H2 H.
  assert (u1 = u2) as ->.
  { apply (f_equal (λ s, last_ascii s "x")) in H.
    rewrite !last_ascii_key_of in H.
    destruct H1 as [->|[->| ->]], H2 as [->|[->| ->]]; done. }
  split; [|done]. by apply string_app_inj_r in H.
Qed.

(** ** First occurrences *)

Lemma elem_of_first_occurrences {A : Type} `{EqDecision A} (x : A) (l : list A) :
  x ∈ first_occurrences l ↔ x ∈ l.
Proof.
  induction l as [|y l IH]; [done|]. cbn [first_occurrences].
  rewrite !elem_of_cons, list_elem_of_filter, IH.
  destruct (decide (x = y)); tauto.
Qed.

Lemma NoDup_first_occurrences {A : Type} `{EqDecision A} (l : list A) :
  NoDup (first_occurrences l).
Proof.
  induction l as [|y l IH]; cbn [first_occurrences]; [constructor|].
  constructor; [|by apply NoDup_filter].
  rewrite list_elem_of_filter. tauto.
Qed.

Lemma first_occurrences_snoc {A : Type} `{EqDecision A} (l : list A) (x : A) :
  first_occurrences (l ++ [x]) =
  if decide (x ∈ l) then first_occurrences l else first_occurrences l ++ [x].
Proof.
  induction l as [|y l IH]; [done|].
  cbn [app first_occurrences]. rewrite IH.
  destruct (decide (x = y)) as [->|Hxy].
  - rewrite (decide_True (P := y ∈ y :: l)) by left.
    case_decide; [done|]. rewrite filter_app, list.filter_singleton_False; [|done|tauto].
    by rewrite app_nil_r.
  - destruct (decide (x ∈ l)) as [Hin|Hin].
    + by rewrite decide_True by (by right).
    + rewrite decide_False by (rewrite elem_of_cons; tauto).
      rewrite filter_app. cbn [app]. f_equal. f_equal.
      rewrite filter_cons, decide_True by done. done.
Qed.

(** ** A dict built from a list of distinct keys *)

Section DictOfKeys.
Context {K V : Type} `{EqDecision K}.
Context (key : K → string) (val : K → V) (ks : list K) (k0 : K).
Hypothesis key_inj : ∀ k, k ∈ ks → key k = key k0 → k = k0.

Lemma dict_get_keyed :
  dict_get (key k0) ((λ k, (key k, val k)) <$> ks) =
  if decide (k0 ∈ ks) then Some (val k0) else None.
Proof using key_inj.
  induction ks as [|k l IH]; [done|]. cbn [fmap list_fmap dict_get].
  destruct (decide (key k = key k0)) as [Hk|Hk].
  - apply key_inj in Hk as ->; [|left]. by rewrite decide_True by left.
  - rewrite IH by (intros; apply key_inj; [by right|done]).
    destruct (decide (k0 ∈ l)) as [Hin|Hin].
    + by rewrite decide_True by (by right).
    + rewrite decide_False; [done|]. rewrite elem_of_cons. intros [->|]; done.
Qed.

Lemma dict_alter_keyed (f : V → V) :
  NoDup ks →
  dict_alter f (key k0) ((λ k, (key k, val k)) <$> ks) =
  (λ k, (key k, if decide (k = k0) then f (val k) else val k)) <$> ks.
Proof using key_inj.
  induction ks as [|k l IH]; [done|]. intros [Hk Hl]%NoDup_cons.
  cbn [fmap list_fmap dict_alter].
  destruct (decide (key k = key k0)) as [Hkey|Hkey].
  - apply key_inj in Hkey as ->; [|left]. rewrite decide_True by done. f_equal.
    apply list_fmap_ext. intros _ k Hin%list_elem_of_lookup_2.
    rewrite decide_False; [done|]. by intros ->.
  - rewrite decide_False by (by intros ->). f_equal.
    apply IH; [|done]. intros; apply key_inj; [by right|done].
Qed.
End DictOfKeys.

(** ** The aggregation loop computes the groups *)

Lemma sum_Qc_cons (x : Qc) (l : list Qc) : sum_Qc (x :: l) = x + sum_Qc l.
Proof. done. Qed.

Lemma sum_Qc_snoc (l : list Qc) (x : Qc) : sum_Qc (l ++ [x]) = sum_Qc l + x.
Proof.
  induction l as [|y l IH]; cbn.
  - by rewrite Qcplus_0_r, Qcplus_0_l.
  - unfold sum_Qc in IH. by rewrite IH, Qcplus_assoc.
Qed.

Lemma key_of_pair_inj (k1 k2 : string * string) :
  valid_unit k1.2 → valid_unit k2.2 → key_of_pair k1 = key_of_pair k2 → k1 = k2.
Proof.
  destruct k1 as [i1 u1], k2 as [i2 u2]. unfold key_of_pair. cbn.
  intros H1 H2 [-> ->]%key_of_inj; done.
Qed.

Lemma lines_of_snoc_ne k its it :
  pair_of it ≠ k → lines_of k (its ++ [it]) = lines_of k its.
Proof.
  intros H. unfold lines_of. rewrite filter_app, list.filter_singleton_False; [|done..].
  by rewrite app_nil_r.
Qed.

Lemma lines_of_snoc_eq its it :
  lines_of (pair_of it) (its ++ [it]) = lines_of (pair_of it) its ++ [it].
Proof.
  unfold lines_of. rewrite filter_app. f_equal.
  by rewrite filter_cons, decide_True.
Qed.

Lemma lines_of_nil k its : k ∉ pair_of <$> its → lines_of k its = [].
Proof.
  intros H. unfold lines_of. induction its as [|it its IH]; [done|].
  rewrite filter_cons. rewrite fmap_cons, not_elem_of_cons in H. destruct H as [H1 H2].
  rewrite decide_False by done. by apply IH.
Qed.

Lemma lines_of_head k its : k ∈ pair_of <$> its → is_Some (head (lines_of k its)).
Proof.
  intros H. unfold lines_of. induction its as [|it its IH].
  - by apply elem_of_nil in H.
  - rewrite filter_cons. case_decide as Hk; [by eexists|].
    rewrite fmap_cons, elem_of_cons in H. destruct H as [->|H]; [done|]. by apply IH.
Qed.

Lemma group_of_snoc_ne ing_idx people its it k :
  pair_of it ≠ k → group_of ing_idx people (its ++ [it]) k = group_of ing_idx people its k.
Proof. intros H. unfold group_of. by rewrite lines_of_snoc_ne. Qed.

Lemma aggregate_groups ing_idx people its :
  valid_units its →
  aggregate ing_idx people its =
  (λ k, (key_of_pair k, group_of ing_idx people its k)) <$>
    first_occurrences (pair_of <$> its).
Proof.
  unfold aggregate. induction its as [|it its IH] using rev_ind; [done|].
  intros Hall. apply Forall_app in Hall as [Hv Hit].
  rewrite Forall_singleton in Hit.
  rewrite foldl_snoc, IH by done. clear IH.
  rewrite fmap_app. change (pair_of <$> [it]) with [pair_of it].
  rewrite first_occurrences_snoc.
  assert (Hinj : ∀ k, k ∈ first_occurrences (pair_of <$> its) →
                   key_of_pair k = key_of_pair (pair_of it) → k = pair_of it).
  { intros k Hk. rewrite elem_of_first_occurrences in Hk. apply key_of_pair_inj; [|exact Hit].
    apply list_elem_of_fmap in Hk as (it' & -> & Hin).
    rewrite Forall_forall in Hv. by apply (Hv it'). }
  unfold agg_step.
  change (key_of (ingredient it) (unit_ it)) with (key_of_pair (pair_of it)).
  rewrite (dict_get_keyed key_of_pair _ _ _ Hinj).
  destruct (decide (pair_of it ∈ pair_of <$> its)) as [Hin|Hin].
  - rewrite decide_True by (by apply elem_of_first_occurrences).
    rewrite (dict_alter_keyed key_of_pair _ _ _ Hinj) by apply NoDup_first_occurrences.
    apply list_fmap_ext. intros _ k _. f_equal.
    case_decide as Hk.
    + subst k. unfold group_of. rewrite lines_of_snoc_eq.
      cbn [Ingrediente UnitCompra PL_pessoa Un Pessoas RL FC Obs].
      rewrite fmap_app. change (perPersonPL <$> [it]) with [perPersonPL it].
      rewrite sum_Qc_snoc, last_snoc, head_app.
      destruct (lines_of_head _ _ Hin) as [it0 ->]. done.
    + by rewrite group_of_snoc_ne.
  - rewrite decide_False by (by rewrite elem_of_first_occurrences).
    rewrite fmap_app. cbn [fmap list_fmap]. f_equal.
    + apply list_fmap_ext. intros _ k Hk%list_elem_of_lookup_2. f_equal.
      rewrite group_of_snoc_ne; [done|]. intros <-.
      by rewrite elem_of_first_occurrences in Hk.
    + do 2 f_equal. unfold group_of. rewrite lines_of_snoc_eq, lines_of_nil by done.
      cbn. by rewrite Qcplus_0_r.
Qed.


Lemma dict_values_aggregate ing_idx people its :
  valid_units its →
  dict_values (aggregate ing_idx people its) =
  group_of ing_idx people its <$> first_occurrences (pair_of <$> its).
Proof.
  intros Hv. unfold dict_values. rewrite aggregate_groups by done.
  rewrite <-list_fmap_compose. done.
Qed.

Lemma Forall2_fmap_same {A B : Type} (P : A → B → Prop) (f : A → B) (l : list A) :
  (∀ a, a ∈ l → P a (f a)) → Forall2 P l (f <$> l).
Proof.
  intros H. apply Forall2_fmap_r, Forall_Forall2_diag, Forall_forall. done.
Qed.

(** * The claims *)

(** ** C1: aggregation of recipe lines *)

(** C1 as worded fails on [split_recipe]: the onion row keeps the note of its
    first line, ["picada"], not the note of its last line, ["em rodelas"]. *)
Lemma C1_note_is_not_last_counterexample :
  ¬ aggregates_last_wins SAMPLE_INGREDIENTS split_recipe 1 None.
Proof.
  intros (rs & s & Hc & HF).
  assert (Hobs : row_Obs <$> rs =
                 (λ k, default "" (note <$> last (lines_of k (items split_recipe))))
                   <$> first_occurrences (pair_of <$> items split_recipe)).
  { generalize dependent (first_occurrences (pair_of <$> items split_recipe)).
    intros ks HF. clear Hc.
    induction HF as [|k row ks rs' (_ & _ & _ & H) _ IH]; [done|].
    rewrite !fmap_cons. by rewrite H, IH. }
  assert (Hrs : rs = rows_of_result
                       (compute_rows SAMPLE_INGREDIENTS split_recipe 1 None))
    by (by rewrite Hc).
  rewrite Hrs in Hobs. vm_compute in Hobs. discriminate Hobs.
Qed.

(** C1 (amended): for a recipe whose lines use the units g, ml and un, the
    lines sharing an (ingredient, unit) pair are aggregated into one group, the
    groups and the output rows are in the first-occurrence order of the pairs,
    the net weight per person of a group is the sum over its lines (times the
    scale factor in the output row), its cooking factor is that of the last
    line of the pair (a zero factor read as 1.0) and its note is that of the
    first line of the pair. *)
Theorem C1_aggregation ingredients recipe people target :
  valid_units (items recipe) →
  let ing_idx := ingredient_map ingredients in
  let agg := aggregate ing_idx people (items recipe) in
  let pairs := first_occurrences (pair_of <$> items recipe) in
  dict_values agg = group_of ing_idx people (items recipe) <$> pairs ∧
  ∃ rs s scale,
    compute_rows ingredients recipe people target = Ok (rs, s) ∧
    scale_of target (served_total_per_person_g agg) = Ok scale ∧
    Forall2 (λ k row,
               let ls := lines_of k (items recipe) in
               row_Ingrediente row = k.1 ∧ row_Un row = k.2 ∧
               row_PL_pessoa row = sum_Qc (perPersonPL <$> ls) * scale ∧
               row_FC row = default 1 (fc_or_one ∘ fc <$> last ls) ∧
               row_Obs row = default "" (note <$> head ls))
            pairs rs.
Proof.
  intros Hv ing_idx agg pairs.
  split; [by apply dict_values_aggregate|].
  eexists _, _, _. split; [apply compute_rows_ok|].
  split; [apply scale_of_ok|].
  fold ing_idx agg. unfold rows_of.
  unfold agg. rewrite dict_values_aggregate by done. fold agg pairs.
  rewrite <-list_fmap_compose. apply Forall2_fmap_same.
  intros k _. cbn. done.
Qed.

Lemma C1_aggregation_witness :
  let ing_idx := ingredient_map SAMPLE_INGREDIENTS in
  let agg := aggregate ing_idx 4 (items split_recipe) in
  let pairs := first_occurrences (pair_of <$> items split_recipe) in
  dict_values agg = group_of ing_idx 4 (items split_recipe) <$> pairs ∧
  ∃ rs s scale,
    compute_rows SAMPLE_INGREDIENTS split_recipe 4 None = Ok (rs, s) ∧
    scale_of None (served_total_per_person_g agg) = Ok scale ∧
    Forall2 (λ k row,
               let ls := lines_of k (items split_recipe) in
               row_Ingrediente row = k.1 ∧ row_Un row = k.2 ∧
               row_PL_pessoa row = sum_Qc (perPersonPL <$> ls) * scale ∧
               row_FC row = default 1 (fc_or_one ∘ fc <$> last ls) ∧
               row_Obs row = default "" (note <$> head ls))
            pairs rs.
Proof.
  apply (C1_aggregation SAMPLE_INGREDIENTS split_recipe 4 None).
  unfold valid_units, valid_unit. simpl. repeat constructor; tauto.
Defined.

(** ** C2: the scale factor *)

Lemma aggregate_valid_units ing_idx people its :
  valid_units its →
  Forall (λ g, valid_unit (Un g)) (dict_values (aggregate ing_idx people its)).
Proof.
  intros Hv. rewrite dict_values_aggregate by done.
  apply Forall_fmap, Forall_forall. intros k Hk.
  rewrite elem_of_first_occurrences in Hk.
  apply list_elem_of_fmap in Hk as (it & -> & Hin).
  unfold valid_units in Hv. rewrite Forall_forall in Hv. by apply (Hv it).
Qed.

Lemma valid_unit_weighed (u : string) :
  valid_unit u → u ≠ "un" ↔ u = "g" ∨ u = "ml".
Proof.
  intros [->|[->| ->]]; split; intros H;
    first [done | by left | by right | by destruct H].
Qed.

Lemma served_total_current agg :
  Forall (λ g, valid_unit (Un g)) (dict_values agg) →
  served_total_per_person_g agg = current_served_per_person (dict_values agg).
Proof.
  intros Hv. rewrite served_total_sum. unfold current_served_per_person.
  do 2 f_equal. induction Hv as [|g l Hg Hl IH]; [done|].
  rewrite !filter_cons, IH.
  destruct (decide (Un g ≠ "un")) as [H|H].
  - by rewrite decide_True by (by apply valid_unit_weighed).
  - by rewrite decide_False by (by rewrite <-valid_unit_weighed).
Qed.

Lemma scale_val_spec target agg :
  Forall (λ g, valid_unit (Un g)) (dict_values agg) →
  scale_val target (served_total_per_person_g agg) = spec_scale target (dict_values agg).
Proof.
  intros Hv. unfold scale_val, spec_scale. rewrite served_total_current by done.
  destruct target as [t|]; [|done].
  destruct (decide (0 < t ∧ 0 < current_served_per_person (dict_values agg))) as [H|H].
  - rewrite decide_True; [done|]. split; [|done]. apply Qc_pos_neq0, H.
  - rewrite decide_False; [done|]. tauto.
Qed.

(** C2: for a recipe whose lines use the units g, ml and un, the scale factor
    of [compute_rows] is the target divided by the served weight per person of
    the gram and milliliter groups when the target is given and positive and
    that weight is positive, and 1.0 otherwise; every output row, unit-counted
    ones included, carries the net weight per person of its group times that
    factor. *)
Theorem C2_scale_factor ingredients recipe people target :
  valid_units (items recipe) →
  let agg := aggregate (ingredient_map ingredients) people (items recipe) in
  let scale := spec_scale target (dict_values agg) in
  scale_of target (served_total_per_person_g agg) = Ok scale ∧
  ∃ rs s,
    compute_rows ingredients recipe people target = Ok (rs, s) ∧
    Forall2 (λ g row, row_Un row = Un g ∧ row_PL_pessoa row = PL_pessoa g * scale)
            (dict_values agg) rs.
Proof.
  intros Hv agg scale.
  assert (Hs : scale_val target (served_total_per_person_g agg) = scale).
  { apply scale_val_spec. by apply aggregate_valid_units. }
  split; [by rewrite scale_of_ok, Hs|].
  eexists _, _. split; [apply compute_rows_ok|].
  fold agg. rewrite Hs. apply Forall2_fmap_same. done.
Qed.

Lemma C2_scale_factor_witness :
  let agg := aggregate (ingredient_map SAMPLE_INGREDIENTS) 4 (items split_recipe) in
  let scale := spec_scale (Some (dec 200 1)) (dict_values agg) in
  scale_of (Some (dec 200 1)) (served_total_per_person_g agg) = Ok scale ∧
  ∃ rs s,
    compute_rows SAMPLE_INGREDIENTS split_recipe 4 (Some (dec 200 1)) = Ok (rs, s) ∧
    Forall2 (λ g row, row_Un row = Un g ∧ row_PL_pessoa row = PL_pessoa g * scale)
            (dict_values agg) rs.
Proof.
  apply (C2_scale_factor SAMPLE_INGREDIENTS split_recipe 4 (Some (dec 200 1))).
  unfold valid_units, valid_unit. simpl. repeat constructor; tauto.
Defined.

(** ** The person count of the groups *)

Lemma dict_get_fmap {V W : Type} (f : V → W) (k : string) (d : list (string * V)) :
  dict_get k (prod_map id f <$> d) = f <$> dict_get k d.
Proof.
  induction d as [|[k' v] d IH]; [done|]. cbn. by case_decide.
Qed.

Lemma dict_alter_fmap {V : Type} (f g : V → V) (k : string) (d : list (string * V)) :
  (∀ v, g (f v) = f (g v)) →
  dict_alter g k (prod_map id f <$> d) = prod_map id f <$> dict_alter g k d.
Proof.
  intros Hfg. induction d as [|[k' v] d IH]; [done|]. cbn. case_decide.
  - cbn. by rewrite Hfg.
  - cbn. by rewrite <-IH.
Qed.

Lemma aggregate_people ing_idx (p q : Z) its :
  aggregate ing_idx q its = prod_map id (with_people q) <$> aggregate ing_idx p its.
Proof.
  unfold aggregate. induction its as [|it its IH] using rev_ind; [done|].
  rewrite !foldl_snoc, IH. unfold agg_step at 1 3.
  rewrite dict_get_fmap.
  destruct (dict_get _ (foldl _ _ its)) as [r|]; cbn [fmap option_fmap option_map].
  - by rewrite dict_alter_fmap.
  - by rewrite fmap_app.
Qed.

Lemma aggregate_Pessoas ing_idx people its :
  Forall (λ g, Pessoas g = people) (dict_values (aggregate ing_idx people its)).
Proof.
  rewrite (aggregate_people ing_idx 0 people). unfold dict_values.
  rewrite <-list_fmap_compose. apply Forall_fmap, Forall_forall. by intros [k r] _.
Qed.

Lemma rows_of_people ing_idx scale people its :
  Forall (λ row, row_Pessoas row = people)
         (rows_of ing_idx scale (aggregate ing_idx people its)).
Proof.
  unfold rows_of. apply Forall_fmap.
  eapply Forall_impl; [apply aggregate_Pessoas|]. done.
Qed.

(** ** C3: purchase quantity *)

(** C3: every output row has gross total = net total / effective yield, where
    the net total is the scaled net weight per person times the person count
    and the effective yield is the yield when positive and 1.0 otherwise; its
    purchase quantity is the gross total / 1000 when the ingredient is bought
    by kg and consumed by gram, and the gross total unchanged for ml with ml,
    un with un and every other combination. *)
Theorem C3_purchase_quantity ingredients recipe people target :
  let agg := aggregate (ingredient_map ingredients) people (items recipe) in
  ∃ rs s,
    compute_rows ingredients recipe people target = Ok (rs, s) ∧
    Forall2 (λ g row,
               row_Un_compra row = UnitCompra g ∧ row_Un row = Un g ∧
               row_PL_total row = row_PL_pessoa row * Qc_of_Z people ∧
               row_PB_total row =
                 row_PL_total row / (if decide (0 < RL g) then RL g else 1) ∧
               row_Qtd_compra row =
                 spec_purchase_quantity (UnitCompra g) (Un g) (row_PB_total row) ∧
               (UnitCompra g = "kg" ∧ Un g = "g" ∧
                  row_Qtd_compra row = row_PB_total row / Qc_of_Z 1000
                ∨ ¬ (UnitCompra g = "kg" ∧ Un g = "g") ∧
                  row_Qtd_compra row = row_PB_total row))
            (dict_values agg) rs.
Proof.
  intros agg. eexists _, _. split; [apply compute_rows_ok|].
  fold agg. apply Forall2_fmap_same. intros g Hg.
  assert (Pessoas g = people) as Hp.
  { pose proof (aggregate_Pessoas (ingredient_map ingredients) people (items recipe)) as H.
    rewrite Forall_forall in H. by apply H. }
  unfold spec_purchase_quantity. cbn. rewrite Hp.
  repeat split; try done.
  - by repeat case_decide.
  - case_decide; [left|right]; tauto.
Qed.

(** ** C4: ingredients missing from the catalog *)

Lemma ingredient_map_lookup_None ingredients (n : string) :
  ingredient_map ingredients !! n = None ↔ n ∉ name <$> ingredients.
Proof.
  unfold ingredient_map.
  induction ingredients as [|ing ings IH] using rev_ind.
  - cbn. rewrite lookup_empty. split; [|done]. intros _ H. by apply elem_of_nil in H.
  - rewrite foldl_snoc, fmap_app, lookup_insert_None, IH, not_elem_of_app.
    cbn. rewrite list_elem_of_singleton. split; intros [H1 H2]; split; congruence.
Qed.

(** C4: in a recipe whose lines use the units g, ml and un, a line whose
    ingredient name is not in the catalog still has a row for its group in the
    output, with yield 1.0 and purchase unit "kg", and with the price, cost
    and calorie fields null. *)
Theorem C4_missing_ingredient ingredients recipe people target it :
  valid_units (items recipe) →
  it ∈ items recipe →
  ingredient it ∉ name <$> ingredients →
  ∃ rs s,
    compute_rows ingredients recipe people target = Ok (rs, s) ∧
    ∃ row, row ∈ rs ∧
      row_Ingrediente row = ingredient it ∧ row_Un row = unit_ it ∧
      row_RL row = 1 ∧ row_Un_compra row = "kg" ∧
      row_Preco row = None ∧ row_Custo row = None ∧ row_kcal_pessoa row = None.
Proof.
  intros Hv Hin Hmiss. apply ingredient_map_lookup_None in Hmiss.
  eexists _, _. split; [apply compute_rows_ok|].
  unfold rows_of. rewrite dict_values_aggregate by done.
  eexists. split.
  - apply list_elem_of_fmap_2, list_elem_of_fmap_2.
    apply elem_of_first_occurrences, list_elem_of_fmap_2, Hin.
  - unfold row_of, group_of, catalog_price. cbn. by rewrite Hmiss.
Qed.

Lemma C4_missing_ingredient_witness :
  ∃ rs s,
    compute_rows SAMPLE_INGREDIENTS split_recipe 4 None = Ok (rs, s) ∧
    ∃ row, row ∈ rs ∧
      row_Ingrediente row = "Salsa" ∧ row_Un row = "g" ∧
      row_RL row = 1 ∧ row_Un_compra row = "kg" ∧
      row_Preco row = None ∧ row_Custo row = None ∧ row_kcal_pessoa row = None.
Proof.
  apply (C4_missing_ingredient SAMPLE_INGREDIENTS split_recipe 4 None
           (mkRecipeItem "Salsa" (dec 5 1) "g" (dec 1 1) "")).
  - unfold valid_units, valid_unit. simpl. repeat constructor; tauto.
  - simpl. do 2 right. left.
  - simpl. rewrite !not_elem_of_cons. repeat split; try discriminate.
    apply not_elem_of_nil.
Defined.

(** ** C5: calories of a group *)

(** C5: [kcal_for_item] gives calories per unit × count for the unit "un",
    calories per 100 g × grams / 100 for "g", and the same with grams = volume
    × density (1.0 when absent) for "ml", null when the calorie field it needs
    is absent; in the output every row's calories are those of its group's
    catalog ingredient at the row's served weight per person, and null when
    the ingredient is not in the catalog. *)
Theorem C5_group_calories ingredients recipe people target :
  let ing_idx := ingredient_map ingredients in
  let agg := aggregate ing_idx people (items recipe) in
  (∀ i w, kcal_for_item i w "un" = Ok ((λ k, k * w) <$> kcal_per_unit i)) ∧
  (∀ i w, kcal_for_item i w "g" = Ok ((λ k, k * w / Qc_of_Z 100) <$> kcal_per_100g i)) ∧
  (∀ i w, kcal_for_item i w "ml" =
          Ok ((λ k, k * (w * default 1 (density_g_per_ml i)) / Qc_of_Z 100)
                <$> kcal_per_100g i)) ∧
  ∃ rs s,
    compute_rows ingredients recipe people target = Ok (rs, s) ∧
    Forall2 (λ g row,
               row_Peso_final_pessoa row = row_PL_pessoa row * FC g ∧
               row_kcal_pessoa row =
                 kcal_of (ing_idx !! Ingrediente g) (Un g) (row_Peso_final_pessoa row))
            (dict_values agg) rs.
Proof.
  intros ing_idx agg.
  repeat split; try (intros i w; by rewrite kcal_for_item_ok).
  eexists _, _. split; [apply compute_rows_ok|].
  fold ing_idx agg. by apply Forall2_fmap_same.
Qed.

(** ** C6: no division by zero *)

Lemma summary_of_cases people rs kcal peso :
  let s := summary_of people rs kcal peso in
  kcal_por_pessoa s = kcal ∧ peso_servido_por_pessoa_g s = peso ∧
  (0 < peso ∧
     fdiv kcal peso = Ok (kcal_por_grama s) ∧
     kcal_por_200g s = kcal_por_grama s * Qc_of_Z 200 ∧
     kcal_totais_receita s =
       kcal * Qc_of_Z (match rs with r :: _ => row_Pessoas r | [] => people end)
   ∨ ¬ 0 < peso ∧
     kcal_por_grama s = 0 ∧ kcal_por_200g s = 0 ∧ kcal_totais_receita s = 0).
Proof.
  unfold summary_of. case_decide as H; cbn.
  - repeat split. left. repeat split; try done. by apply fdiv_ok, Qc_pos_neq0.
  - repeat split. by right.
Qed.

Lemma first_row_people ing_idx scale people its :
  match rows_of ing_idx scale (aggregate ing_idx people its) with
  | r :: _ => row_Pessoas r
  | [] => people
  end = people.
Proof.
  pose proof (rows_of_people ing_idx scale people its) as H.
  destruct (rows_of _ _ _) as [|r rs]; [done|]. by apply Forall_cons in H as [H _].
Qed.

(** C6: [compute_rows] never raises [ZeroDivisionError]. For every group the
    gross total is the net total divided by a divisor that is the yield when
    the yield is positive and 1.0 otherwise, hence positive; in the summary,
    calories per gram is a division by the served weight per person, performed
    only when that weight is positive, with calories per 200 g and the recipe
    total derived from it, and all three are 0.0 otherwise. *)
Theorem C6_no_zero_divisor ingredients recipe people target :
  let agg := aggregate (ingredient_map ingredients) people (items recipe) in
  ∃ rs s,
    compute_rows ingredients recipe people target = Ok (rs, s) ∧
    Forall2 (λ g row,
               row_RL row = (if decide (0 < RL g) then RL g else 1) ∧
               0 < row_RL row ∧
               fdiv (row_PL_total row) (row_RL row) = Ok (row_PB_total row))
            (dict_values agg) rs ∧
    (0 < peso_servido_por_pessoa_g s ∧
       fdiv (kcal_por_pessoa s) (peso_servido_por_pessoa_g s) = Ok (kcal_por_grama s) ∧
       kcal_por_200g s = kcal_por_grama s * Qc_of_Z 200 ∧
       kcal_totais_receita s = kcal_por_pessoa s * Qc_of_Z people
     ∨ ¬ 0 < peso_servido_por_pessoa_g s ∧
       kcal_por_grama s = 0 ∧ kcal_por_200g s = 0 ∧ kcal_totais_receita s = 0).
Proof.
  intros agg. eexists _, _. split; [apply compute_rows_ok|]. fold agg. split.
  - apply Forall2_fmap_same. intros g _. cbn. repeat split.
    + apply eff_rl_pos.
    + apply fdiv_ok, eff_rl_neq0.
  - match goal with
    | |- context [summary_of ?p ?rs ?k ?w] =>
        destruct (summary_of_cases p rs k w) as (-> & -> & H)
    end.
    unfold agg in H. rewrite first_row_people in H. exact H.
Qed.

(** ** C7: cost and price *)

(** C7: in every output row the price is that of the group's catalog
    ingredient, null when the ingredient is missing or has no price; the cost
    is null exactly when the price is null, and is purchase quantity × price
    otherwise. *)
Theorem C7_cost_null_iff_price_null ingredients recipe people target :
  let ing_idx := ingredient_map ingredients in
  let agg := aggregate ing_idx people (items recipe) in
  ∃ rs s,
    compute_rows ingredients recipe people target = Ok (rs, s) ∧
    Forall2 (λ g row,
               let ing := ing_idx !! Ingrediente g in
               row_Preco row = ing ≫= price ∧
               (row_Preco row = None ↔
                  ing = None ∨ ∃ i, ing = Some i ∧ price i = None) ∧
               (row_Custo row = None ↔ row_Preco row = None) ∧
               row_Custo row = (λ p, row_Qtd_compra row * p) <$> row_Preco row)
            (dict_values agg) rs.
Proof.
  intros ing_idx agg. eexists _, _. split; [apply compute_rows_ok|].
  fold ing_idx agg. apply Forall2_fmap_same. intros g _. cbn.
  unfold catalog_price. split; [done|]. split; [|split; [|done]].
  - destruct (ing_idx !! Ingrediente g) as [i|]; cbn.
    + split; [intros H; right; by exists i|]. intros [H|(i' & [= <-] & H)]; done.
    + split; [by left|done].
  - by destruct (ing_idx !! Ingrediente g ≫= price).
Qed.

(** ** C8: linearity in the person count *)

Lemma dict_values_fmap {V W : Type} (f : V → W) (d : list (string * V)) :
  dict_values (prod_map id f <$> d) = f <$> dict_values d.
Proof. unfold dict_values. rewrite <-!list_fmap_compose. done. Qed.

Lemma served_total_with_people (q : Z) agg :
  served_total_per_person_g (prod_map id (with_people q) <$> agg) =
  served_total_per_person_g agg.
Proof.
  unfold served_total_per_person_g. by rewrite dict_values_fmap, foldl_fmap.
Qed.

Lemma row_of_double ing_idx scale (r : AggRow) :
  row_of ing_idx scale (with_people (2 * Pessoas r) r) =
  double_totals (row_of ing_idx scale r).
Proof.
  unfold row_of, double_totals. cbn.
  rewrite Z2Qc_inj_mul, Z2Qc_inj_2.
  destruct (catalog_price ing_idx (Ingrediente r)) as [p|];
    case_decide; cbn; f_equal;
    first [done | unfold Qcdiv; ring | f_equal; unfold Qcdiv; ring].
Qed.

Lemma total_kcal_double rs : total_kcal (double_totals <$> rs) = total_kcal rs.
Proof.
  unfold total_kcal. f_equal.
  induction rs as [|r rs IH]; [done|]. cbn. by rewrite IH.
Qed.

Lemma total_served_double rs : total_served (double_totals <$> rs) = total_served rs.
Proof.
  unfold total_served, weighed. f_equal.
  induction rs as [|r rs IH]; [done|].
  rewrite fmap_cons, !filter_cons. cbn [double_totals row_Un].
  case_decide; [rewrite !fmap_cons|]; by rewrite IH.
Qed.

Lemma summary_of_double people rs kcal peso :
  summary_of (2 * people) (double_totals <$> rs) kcal peso =
  double_recipe_total (summary_of people rs kcal peso).
Proof.
  unfold summary_of, double_recipe_total. case_decide; cbn; f_equal.
  destruct rs as [|r rs]; cbn; rewrite Z2Qc_inj_mul, Z2Qc_inj_2; ring.
Qed.

(** C8: with twice the person count, [compute_rows] returns the same rows and
    summary with every total doubled (net total, gross total, purchase
    quantity, cost when not null, served total, recipe calories) and every
    per-person field unchanged. *)
Theorem C8_linear_in_people ingredients recipe people target :
  ∃ rs s,
    compute_rows ingredients recipe people target = Ok (rs, s) ∧
    compute_rows ingredients recipe (2 * people) target =
      Ok (double_totals <$> rs, double_recipe_total s).
Proof.
  eexists _, _. split; [apply compute_rows_ok|].
  rewrite compute_rows_ok.
  set (ing_idx := ingredient_map ingredients).
  rewrite (aggregate_people ing_idx people (2 * people)).
  rewrite served_total_with_people.
  set (agg := aggregate ing_idx people (items recipe)).
  set (scale := scale_val target (served_total_per_person_g agg)).
  assert (Hrs : rows_of ing_idx scale (prod_map id (with_people (2 * people)) <$> agg)
                = double_totals <$> rows_of ing_idx scale agg).
  { unfold rows_of. rewrite dict_values_fmap, <-!list_fmap_compose.
    apply list_fmap_ext. intros _ g Hg%list_elem_of_lookup_2. cbn.
    pose proof (aggregate_Pessoas ing_idx people (items recipe)) as H.
    rewrite Forall_forall in H. rewrite <-(H g Hg) at 1. apply row_of_double. }
  rewrite Hrs, total_kcal_double, total_served_double, summary_of_double. done.
Qed.

(** ** C9: the target portion is attained *)

Lemma total_served_rows ing_idx scale agg :
  total_served (rows_of ing_idx scale agg) = served_total_per_person_g agg * scale.
Proof.
  rewrite served_total_sum. unfold total_served, weighed, rows_of.
  induction (dict_values agg) as [|r l IH].
  - cbn. ring.
  - rewrite fmap_cons, !filter_cons. cbn [row_of row_Un].
    case_decide; [|done]. rewrite !fmap_cons, !sum_Qc_cons, IH.
    cbn [row_of row_Peso_final_pessoa]. ring.
Qed.

(** C9: for a recipe whose lines use the units g, ml and un, when a positive
    target is given and the served weight per person of the gram and
    milliliter groups before scaling is positive, the summary's served weight
    per person equals the target. *)
Theorem C9_target_attained ingredients recipe people (t : Qc) :
  valid_units (items recipe) →
  0 < t →
  0 < current_served_per_person
        (dict_values (aggregate (ingredient_map ingredients) people (items recipe))) →
  ∃ rs s,
    compute_rows ingredients recipe people (Some t) = Ok (rs, s) ∧
    peso_servido_por_pessoa_g s = t.
Proof.
  intros Hv Ht Hs. eexists _, _. split; [apply compute_rows_ok|].
  match goal with
  | |- context [summary_of ?p ?rs ?k ?w] =>
      destruct (summary_of_cases p rs k w) as (_ & -> & _)
  end.
  rewrite total_served_rows.
  rewrite served_total_current by (by apply aggregate_valid_units).
  unfold scale_val. rewrite decide_True.
  - field. by apply Qc_pos_neq0.
  - split; [by apply Qc_pos_neq0|done].
Qed.

Lemma C9_target_attained_witness :
  ∃ rs s,
    compute_rows SAMPLE_INGREDIENTS frango_recipe 4 (Some (dec 200 1)) = Ok (rs, s) ∧
    peso_servido_por_pessoa_g s = dec 200 1.
Proof.
  apply (C9_target_attained SAMPLE_INGREDIENTS frango_recipe 4 (dec 200 1)).
  - unfold valid_units, valid_unit. simpl. repeat constructor; tauto.
  - reflexivity.
  - vm_compute. reflexivity.
Defined.

(** ** C10: the empty recipe *)

(** C10: for a recipe without lines, [compute_rows] returns no rows and a
    summary whose five fields are 0.0, whatever the catalog, the person count
    and the target. *)
Theorem C10_empty_recipe ingredients (recipe_name : string) people target :
  compute_rows ingredients {| recipe_name := recipe_name; items := [] |} people target =
  Ok ([], {| kcal_por_pessoa := 0;
             peso_servido_por_pessoa_g := 0;
             kcal_por_grama := 0;
             kcal_por_200g := 0;
             kcal_totais_receita := 0 |}).
Proof.
  unfold compute_rows. cbn [items aggregate foldl].
  rewrite scale_of_ok. reflexivity.
Qed.

(** * Further properties of the code *)

(** ** [ingredient_map] *)

Lemma ingredient_map_lookup_last ingredients (n : string) :
  ingredient_map ingredients !! n = last (filter (λ i, name i = n) ingredients).
Proof.
  unfold ingredient_map.
  induction ingredients as [|ing ings IH] using rev_ind; [done|].
  rewrite foldl_snoc, filter_app, filter_cons, filter_nil.
  destruct (decide (name ing = n)) as [<-|Hne].
  - by rewrite lookup_insert_eq, last_snoc.
  - by rewrite lookup_insert_ne, app_nil_r.
Qed.

(** X1: looking a name up in [ingredient_map] gives the last ingredient of the
    list that has this name, and nothing when no ingredient has it; an
    ingredient that is found is in the list and has the name asked for. *)
Theorem ingredient_map_last_wins ingredients (n : string) :
  ingredient_map ingredients !! n = last (filter (λ i, name i = n) ingredients) ∧
  (ingredient_map ingredients !! n = None ∨
   ∃ i, ingredient_map ingredients !! n = Some i ∧ i ∈ ingredients ∧ name i = n).
Proof.
  split; [apply ingredient_map_lookup_last|].
  rewrite ingredient_map_lookup_last.
  destruct (last _) as [i|] eqn:Hl; [right|by left].
  exists i. split; [done|].
  apply last_Some_elem_of, list_elem_of_filter in Hl. tauto.
Qed.

(** ** [kcal_for_item] *)

(** X2: [kcal_for_item] never raises and is linear in the served quantity:
    with [a] times the quantity it returns [a] times the calories, and null
    exactly when it returned null, for whatever unit string. *)
Theorem kcal_for_item_linear (i : Ingredient) (a w : Qc) (u : string) :
  ∃ c, kcal_for_item i w u = Ok c ∧
       kcal_for_item i (a * w) u = Ok ((λ x, a * x) <$> c).
Proof.
  eexists. split; [apply kcal_for_item_ok|]. rewrite kcal_for_item_ok. f_equal.
  case_decide.
  - destruct (kcal_per_unit i); [|done]. cbn. f_equal. ring.
  - destruct (kcal_per_100g i); [|done]. cbn. f_equal.
    case_decide; unfold Qcdiv; ring.
Qed.

(** ** The summary totals *)

(** X3: the summary's calories per person are the sum of the non-null calorie
    entries of the rows, and its served weight per person is the sum of the
    served weights of the rows whose unit is not "un". *)
Theorem summary_totals_are_column_sums ingredients recipe people target :
  ∃ rs s,
    compute_rows ingredients recipe people target = Ok (rs, s) ∧
    kcal_por_pessoa s = sum_Qc (omap row_kcal_pessoa rs) ∧
    peso_servido_por_pessoa_g s =
      sum_Qc (row_Peso_final_pessoa <$> filter (λ row, row_Un row ≠ "un") rs).
Proof.
  eexists _, _. split; [apply compute_rows_ok|].
  match goal with
  | |- context [summary_of ?p ?rs ?k ?w] =>
      destruct (summary_of_cases p rs k w) as (-> & -> & _)
  end.
  done.
Qed.

(** ** The dict [agg], for every recipe *)

Lemma dict_get_None {V : Type} (k : string) (d : list (string * V)) :
  dict_get k d = None ↔ k ∉ d.*1.
Proof.
  induction d as [|[k' v] d IH]; cbn.
  - split; [|done]. intros _ H. by apply elem_of_nil in H.
  - rewrite not_elem_of_cons. case_decide as Hk.
    + split; [done|]. intros [H _]. by destruct H.
    + rewrite IH. split; [|tauto]. intros H. split; [|done]. by intros ->.
Qed.

Lemma dict_alter_keys {V : Type} (f : V → V) (k : string) (d : list (string * V)) :
  (dict_alter f k d).*1 = d.*1.
Proof.
  induction d as [|[k' v] d IH]; [done|]. cbn. case_decide; cbn; [done|by rewrite IH].
Qed.

Lemma dict_alter_Forall {V : Type} (P : string → V → Prop) (f : V → V) (k : string)
    (d : list (string * V)) :
  (∀ k' v, P k' v → P k' (f v)) →
  Forall (λ kv, P kv.1 kv.2) d → Forall (λ kv, P kv.1 kv.2) (dict_alter f k d).
Proof.
  intros Hf. induction 1 as [|[k' v] d Hv Hd IH]; [constructor|].
  cbn [dict_alter]. case_decide; constructor; cbn in *; auto.
Qed.

Lemma aggregate_keys ing_idx people its :
  (aggregate ing_idx people its).*1 = first_occurrences (item_key <$> its).
Proof.
  unfold aggregate. induction its as [|it its IH] using rev_ind; [done|].
  rewrite foldl_snoc, fmap_app. change (item_key <$> [it]) with [item_key it].
  rewrite first_occurrences_snoc.
  set (agg := foldl (agg_step ing_idx people) [] its) in *.
  unfold agg_step. fold (item_key it).
  destruct (dict_get (item_key it) agg) as [r|] eqn:Hget.
  - rewrite dict_alter_keys, IH, decide_True; [done|].
    apply elem_of_first_occurrences. rewrite <-IH.
    destruct (decide (item_key it ∈ agg.*1)) as [|Hn]; [done|].
    apply dict_get_None in Hn. congruence.
  - apply dict_get_None in Hget. rewrite IH, elem_of_first_occurrences in Hget.
    by rewrite decide_False, fmap_app, IH.
Qed.

Lemma aggregate_entry_keys ing_idx people its :
  Forall (λ kr, kr.1 = key_of (Ingrediente kr.2) (Un kr.2))
         (aggregate ing_idx people its).
Proof.
  unfold aggregate. induction its as [|it its IH] using rev_ind; [constructor|].
  rewrite foldl_snoc.
  set (agg := foldl (agg_step ing_idx people) [] its) in *.
  unfold agg_step. destruct (dict_get _ agg) as [r|].
  - by apply (dict_alter_Forall (λ k v, k = key_of (Ingrediente v) (Un v))).
  - apply Forall_app. split; [done|]. by constructor.
Qed.

(** X4: for every recipe, whatever its unit strings, the output has exactly
    one row per distinct key [ingredient__unit] of the recipe lines, in the
    order in which the keys first occur; so no two rows have the same key and
    there are at most as many rows as lines. *)
Theorem rows_follow_first_occurrence_of_keys ingredients recipe people target :
  ∃ rs s,
    compute_rows ingredients recipe people target = Ok (rs, s) ∧
    (λ row, key_of (row_Ingrediente row) (row_Un row)) <$> rs =
      first_occurrences (item_key <$> items recipe) ∧
    NoDup ((λ row, key_of (row_Ingrediente row) (row_Un row)) <$> rs) ∧
    (length rs ≤ length (items recipe))%nat.
Proof.
  eexists _, _. split; [apply compute_rows_ok|].
  set (agg := aggregate (ingredient_map ingredients) people (items recipe)).
  assert (Hk : (λ row, key_of (row_Ingrediente row) (row_Un row))
                 <$> rows_of (ingredient_map ingredients)
                       (scale_val target (served_total_per_person_g agg)) agg
               = first_occurrences (item_key <$> items recipe)).
  { rewrite <-(aggregate_keys (ingredient_map ingredients) people). fold agg. unfold rows_of, dict_values.
    rewrite <-!list_fmap_compose. apply list_fmap_ext.
    intros _ kr Hkr%list_elem_of_lookup_2. cbn.
    pose proof (aggregate_entry_keys (ingredient_map ingredients) people (items recipe)) as H.
    rewrite Forall_forall in H. symmetry. by apply H. }
  split; [done|]. split.
  - rewrite Hk. apply NoDup_first_occurrences.
  - apply (f_equal length) in Hk. rewrite length_fmap in Hk. rewrite Hk.
    rewrite <-(length_fmap item_key (items recipe)).
    generalize (item_key <$> items recipe). clear.
    induction l as [|x l IH]; [done|]. cbn.
    etrans; [apply le_n_S, length_filter|]. lia.
Qed.

(** ** Aggregation keeps the net weight *)

Lemma sum_Qc_app (l1 l2 : list Qc) : sum_Qc (l1 ++ l2) = sum_Qc l1 + sum_Qc l2.
Proof.
  induction l1 as [|x l1 IH]; cbn.
  - by rewrite Qcplus_0_l.
  - unfold sum_Qc in IH. by rewrite IH, Qcplus_assoc.
Qed.

Lemma dict_alter_weight (f : AggRow → AggRow) (x : Qc) (k : string)
    (d : list (string * AggRow)) :
  (∀ r, PL_pessoa (f r) = PL_pessoa r + x) →
  is_Some (dict_get k d) →
  sum_Qc (PL_pessoa <$> dict_values (dict_alter f k d)) =
  sum_Qc (PL_pessoa <$> dict_values d) + x.
Proof.
  intros Hf. unfold dict_values.
  induction d as [|[k' v] d IH]; cbn [dict_get dict_alter].
  - by intros [? ?].
  - case_decide.
    + intros _. rewrite !fmap_cons, !sum_Qc_cons. cbn [snd]. rewrite Hf. ring.
    + intros H'. rewrite !fmap_cons, !sum_Qc_cons, IH by done. ring.
Qed.

Lemma aggregate_weight ing_idx people its :
  sum_Qc (PL_pessoa <$> dict_values (aggregate ing_idx people its)) =
  sum_Qc (perPersonPL <$> its).
Proof.
  unfold aggregate. induction its as [|it its IH] using rev_ind; [done|].
  rewrite foldl_snoc, fmap_app, sum_Qc_app, <-IH.
  set (agg := foldl (agg_step ing_idx people) [] its).
  unfold agg_step. destruct (dict_get _ agg) as [r|] eqn:Hget.
  - rewrite dict_alter_weight with (x := perPersonPL it); [|done|by rewrite Hget].
    cbn. by rewrite Qcplus_0_r.
  - unfold dict_values. rewrite !fmap_app, sum_Qc_app. done.
Qed.

(** X5: for every recipe, the net weights per person of the groups add up to
    the net weights per person of the recipe lines, so aggregation neither
    loses nor invents weight; without a target the "PL/pessoa" column of the
    output adds up to the same sum. *)
Theorem aggregation_conserves_weight ingredients recipe people :
  let agg := aggregate (ingredient_map ingredients) people (items recipe) in
  sum_Qc (PL_pessoa <$> dict_values agg) = sum_Qc (perPersonPL <$> items recipe) ∧
  ∃ rs s,
    compute_rows ingredients recipe people None = Ok (rs, s) ∧
    sum_Qc (row_PL_pessoa <$> rs) = sum_Qc (perPersonPL <$> items recipe).
Proof.
  intros agg. split; [apply aggregate_weight|].
  eexists _, _. split; [apply compute_rows_ok|].
  rewrite <-(aggregate_weight (ingredient_map ingredients) people). fold agg.
  unfold rows_of. rewrite <-list_fmap_compose. f_equal.
  apply list_fmap_ext. intros _ g _. cbn. ring.
Qed.

(** ** Splitting a line *)

Lemma dict_get_snoc_None {V : Type} (k : string) (v : V) (d : list (string * V)) :
  dict_get k d = None → dict_get k (d ++ [(k, v)]) = Some v.
Proof.
  induction d as [|[k' v'] d IH]; cbn.
  - intros _. by rewrite decide_True.
  - case_decide; [done|]. apply IH.
Qed.

Lemma dict_alter_snoc_None {V : Type} (f : V → V) (k : string) (v : V)
    (d : list (string * V)) :
  dict_get k d = None → dict_alter f k (d ++ [(k, v)]) = d ++ [(k, f v)].
Proof.
  induction d as [|[k' v'] d IH]; cbn.
  - intros _. by rewrite decide_True.
  - case_decide; [done|]. intros H'. by rewrite IH.
Qed.

Lemma dict_get_alter {V : Type} (f : V → V) (k : string) (d : list (string * V)) :
  dict_get k (dict_alter f k d) = f <$> dict_get k d.
Proof.
  induction d as [|[k' v] d IH]; [done|]. cbn. case_decide; cbn.
  - by rewrite decide_True.
  - by rewrite decide_False.
Qed.

Lemma dict_alter_alter {V : Type} (f g h : V → V) (k : string) (d : list (string * V)) :
  (∀ v, g (f v) = h v) →
  dict_alter g k (dict_alter f k d) = dict_alter h k d.
Proof.
  intros Hh. induction d as [|[k' v] d IH]; [done|]. cbn. case_decide; cbn.
  - by rewrite decide_True, Hh.
  - by rewrite decide_False, IH.
Qed.

Lemma agg_step_split ing_idx people agg it (a b : Qc) :
  agg_step ing_idx people (agg_step ing_idx people agg (with_weight a it))
           (with_weight b it) =
  agg_step ing_idx people agg (with_weight (a + b) it).
Proof.
  unfold agg_step. cbn [with_weight ingredient unit_ perPersonPL fc note].
  destruct (dict_get (key_of (ingredient it) (unit_ it)) agg) as [r|] eqn:Hget.
  - rewrite dict_get_alter, Hget. cbn [fmap option_fmap option_map].
    apply dict_alter_alter. intros v. cbn. f_equal. by rewrite Qcplus_assoc.
  - rewrite dict_get_snoc_None by done. by rewrite dict_alter_snoc_None.
Qed.

(** X6: writing one recipe line as two consecutive lines with the same
    ingredient, unit, cooking factor and note, whose net weights add up to the
    weight of the one line, changes nothing in the rows and the summary. *)
Theorem split_line_same_result ingredients (n : string) (before after : list RecipeItem)
    (it : RecipeItem) (a b : Qc) people target :
  compute_rows ingredients
    {| recipe_name := n;
       items := before ++ with_weight a it :: with_weight b it :: after |}
    people target =
  compute_rows ingredients
    {| recipe_name := n; items := before ++ with_weight (a + b) it :: after |}
    people target.
Proof.
  rewrite !compute_rows_ok. cbn [items].
  assert (aggregate (ingredient_map ingredients) people
            (before ++ with_weight a it :: with_weight b it :: after) =
          aggregate (ingredient_map ingredients) people
            (before ++ with_weight (a + b) it :: after)) as ->; [|done].
  unfold aggregate. rewrite !foldl_app. cbn [foldl]. by rewrite agg_step_split.
Qed.

(** ** The target portion *)

Lemma scale_val_pos target served : 0 < scale_val target served.
Proof.
  unfold scale_val. destruct target as [t|]; [|done].
  case_decide as H; [|done]. destruct H as (_ & Ht & Hs).
  unfold Qcdiv. apply Qcmult_pos_pos; [done|]. by apply Qcinv_pos.
Qed.

Lemma scale_val_current (served : Qc) : scale_val (Some served) served = 1.
Proof.
  unfold scale_val. case_decide as H; [|done]. field. apply H.
Qed.

(** X7: a target equal to the served weight per person that the recipe
    already has gives the same rows and summary as no target. *)
Theorem target_equal_to_current_changes_nothing ingredients recipe people :
  let agg := aggregate (ingredient_map ingredients) people (items recipe) in
  compute_rows ingredients recipe people (Some (served_total_per_person_g agg)) =
  compute_rows ingredients recipe people None.
Proof.
  intros agg. rewrite !compute_rows_ok. fold agg.
  by rewrite scale_val_current.
Qed.

Lemma kcal_of_times ing (u : string) (c x : Qc) :
  kcal_of ing u (c * x) = (λ k, c * k) <$> kcal_of ing u x.
Proof.
  unfold kcal_of. destruct ing as [i|]; [|done].
  repeat case_decide; try done.
  - destruct (kcal_per_unit i); [|done]. cbn. f_equal. ring.
  - destruct (kcal_per_100g i); [|done]. cbn. f_equal. unfold Qcdiv. ring.
  - destruct (kcal_per_100g i); [|done]. cbn. f_equal. unfold Qcdiv. ring.
Qed.

Lemma row_of_portion ing_idx (c : Qc) (r : AggRow) :
  row_of ing_idx c r = portion_times c (row_of ing_idx 1 r).
Proof.
  unfold row_of, portion_times. cbn.
  replace (PL_pessoa r * c * FC r) with (c * (PL_pessoa r * 1 * FC r)) by ring.
  rewrite kcal_of_times.
  destruct (catalog_price ing_idx (Ingrediente r)) as [p|];
    case_decide; cbn; f_equal;
    first [done | unfold Qcdiv; ring | f_equal; unfold Qcdiv; ring].
Qed.

Lemma sum_Qc_times (c : Qc) (l : list Qc) :
  sum_Qc ((λ x, c * x) <$> l) = c * sum_Qc l.
Proof.
  induction l as [|x l IH]; cbn.
  - ring.
  - unfold sum_Qc in IH. rewrite IH. ring.
Qed.

Lemma total_kcal_portion (c : Qc) rs :
  total_kcal (portion_times c <$> rs) = c * total_kcal rs.
Proof.
  unfold total_kcal. rewrite <-sum_Qc_times. f_equal.
  induction rs as [|r rs IH]; [done|]. cbn.
  destruct (row_kcal_pessoa r); cbn; by rewrite IH.
Qed.

Lemma total_served_portion (c : Qc) rs :
  total_served (portion_times c <$> rs) = c * total_served rs.
Proof.
  unfold total_served, weighed. rewrite <-sum_Qc_times. f_equal.
  induction rs as [|r rs IH]; [done|].
  rewrite fmap_cons, !filter_cons. cbn [portion_times row_Un].
  case_decide; [rewrite !fmap_cons|]; by rewrite IH.
Qed.

Lemma rows_of_portion ing_idx (c : Qc) agg :
  rows_of ing_idx c agg = portion_times c <$> rows_of ing_idx 1 agg.
Proof.
  unfold rows_of. rewrite <-list_fmap_compose. apply list_fmap_ext.
  intros _ r _. apply row_of_portion.
Qed.


(** X9: the calories per gram and per 200 g of the summary do not depend on
    the target: rescaling the portion keeps the calorie density of the dish. *)
Theorem calorie_density_independent_of_target ingredients recipe people target :
  ∃ rs0 s0 rs s,
    compute_rows ingredients recipe people None = Ok (rs0, s0) ∧
    compute_rows ingredients recipe people target = Ok (rs, s) ∧
    kcal_por_grama s = kcal_por_grama s0 ∧
    kcal_por_200g s = kcal_por_200g s0.
Proof.
  set (agg := aggregate (ingredient_map ingredients) people (items recipe)).
  eexists _, _, _, _. split; [apply compute_rows_ok|].
  split; [apply compute_rows_ok|]. fold agg. cbn [scale_val].
  set (c := scale_val target (served_total_per_person_g agg)).
  assert (Hc : 0 < c) by apply scale_val_pos.
  rewrite (rows_of_portion _ c), total_kcal_portion, total_served_portion.
  set (rs0 := rows_of (ingredient_map ingredients) 1 agg).
  unfold summary_of.
  destruct (decide (0 < total_served rs0)) as [Hw|Hw].
  - rewrite decide_True by (by apply Qcmult_pos_pos). cbn.
    assert (c * total_kcal rs0 / (c * total_served rs0)
            = total_kcal rs0 / total_served rs0) as ->; [|done].
    field. split; by apply Qc_pos_neq0.
  - rewrite decide_False; [done|]. intros H. apply Hw.
    apply (Qcmult_lt_mono_pos_l 0 (total_served rs0) c) in Hc.
    rewrite Qcmult_0_r in Hc. by apply Hc.
Qed.

(** ** The person count *)







(** ** The total cost shown under the table *)




(** ** No negative quantity *)

Lemma fc_or_one_nonneg (x : Qc) : 0 ≤ x → 0 ≤ fc_or_one x.
Proof. intros H. unfold fc_or_one. by case_decide. Qed.

Lemma aggregate_nonneg ing_idx people its :
  Forall (λ it, 0 ≤ perPersonPL it ∧ 0 ≤ fc it) its →
  Forall (λ kr, 0 ≤ PL_pessoa kr.2 ∧ 0 ≤ FC kr.2) (aggregate ing_idx people its).
Proof.
  unfold aggregate. induction its as [|it its IH] using rev_ind; [constructor|].
  intros Hall. apply Forall_app in Hall as [Hits Hit].
  rewrite Forall_singleton in Hit. destruct Hit as [Hw Hf].
  rewrite foldl_snoc.
  set (agg := foldl (agg_step ing_idx people) [] its) in *.
  unfold agg_step. destruct (dict_get _ agg) as [r|].
  - apply (dict_alter_Forall (λ _ v, 0 ≤ PL_pessoa v ∧ 0 ≤ FC v)); [|by apply IH].
    intros _ v [Hv _]. cbn. split.
    + by apply Qcplus_nonneg_nonneg.
    + by apply fc_or_one_nonneg.
  - apply Forall_app. split; [by apply IH|]. constructor; [|constructor].
    cbn. split; [done|by apply fc_or_one_nonneg].
Qed.

Lemma Qcdiv_nonneg_pos (x y : Qc) : 0 ≤ x → 0 < y → 0 ≤ x / y.
Proof.
  intros Hx Hy. unfold Qcdiv. apply Qcmult_nonneg_nonneg; [done|].
  by apply Qclt_le_weak, Qcinv_pos.
Qed.

Lemma ingredient_map_elem_of ingredients (n : string) (i : Ingredient) :
  ingredient_map ingredients !! n = Some i → i ∈ ingredients.
Proof.
  rewrite ingredient_map_lookup_last. intros H%last_Some_elem_of.
  by apply list_elem_of_filter in H as [_ H].
Qed.

(** X12: when no recipe line has a negative net weight or cooking factor, the
    person count is not negative and no catalog price is negative, no row has
    a negative quantity (net and served weight per person, net, gross and
    served totals, purchase quantity) or a negative cost, whatever the yields
    and the target. *)
Theorem no_negative_quantity ingredients recipe people target :
  Forall (λ it, 0 ≤ perPersonPL it ∧ 0 ≤ fc it) (items recipe) →
  (0 ≤ people)%Z →
  Forall (λ i, 0 ≤ default 0 (price i)) ingredients →
  ∃ rs s,
    compute_rows ingredients recipe people target = Ok (rs, s) ∧
    Forall (λ row,
              0 ≤ row_PL_pessoa row ∧ 0 ≤ row_Peso_final_pessoa row ∧
              0 ≤ row_PL_total row ∧ 0 ≤ row_PB_total row ∧
              0 ≤ row_Peso_final_total row ∧ 0 ≤ row_Qtd_compra row ∧
              0 ≤ default 0 (row_Custo row))
           rs.
Proof.
  intros Hits Hp Hprice. eexists _, _. split; [apply compute_rows_ok|].
  set (ing_idx := ingredient_map ingredients).
  set (agg := aggregate ing_idx people (items recipe)).
  set (c := scale_val target (served_total_per_person_g agg)).
  assert (Hc : 0 ≤ c) by apply Qclt_le_weak, scale_val_pos.
  unfold rows_of, dict_values. rewrite <-list_fmap_compose. apply Forall_fmap.
  pose proof (aggregate_nonneg ing_idx people (items recipe) Hits) as Hagg.
  pose proof (aggregate_Pessoas ing_idx people (items recipe)) as Hpeople.
  fold agg in Hagg, Hpeople. unfold dict_values in Hpeople.
  rewrite Forall_fmap in Hpeople.
  eapply Forall_impl; [apply Forall_and; split; [exact Hagg|exact Hpeople]|].
  intros [k r] [[Hw Hf] Hn]. cbn in *.
  assert (Hpl : 0 ≤ PL_pessoa r * c) by (by apply Qcmult_nonneg_nonneg).
  assert (Hz : 0 ≤ Qc_of_Z (Pessoas r)).
  { rewrite Hn, <-Z2Qc_inj_0. by apply (proj1 (Z2Qc_inj_le 0 people)). }
  assert (Ht : 0 ≤ PL_pessoa r * c * Qc_of_Z (Pessoas r))
    by (by apply Qcmult_nonneg_nonneg).
  assert (Hb : 0 ≤ PL_pessoa r * c * Qc_of_Z (Pessoas r) / eff_rl (RL r))
    by (apply Qcdiv_nonneg_pos; [done|apply eff_rl_pos]).
  assert (Hq : 0 ≤ (if decide (UnitCompra r = "kg" ∧ Un r = "g")
                    then PL_pessoa r * c * Qc_of_Z (Pessoas r) / eff_rl (RL r)
                         / Qc_of_Z 1000
                    else PL_pessoa r * c * Qc_of_Z (Pessoas r) / eff_rl (RL r))).
  { case_decide; [|done]. by apply Qcdiv_nonneg_pos. }
  repeat split; try done; try (by apply Qcmult_nonneg_nonneg).
  unfold catalog_price.
  destruct (ing_idx !! Ingrediente r) as [i|] eqn:Hi; [|done]. cbn.
  destruct (price i) as [p|] eqn:Hpi; [|done]. cbn.
  apply Qcmult_nonneg_nonneg; [done|].
  apply ingredient_map_elem_of in Hi. rewrite Forall_forall in Hprice.
  specialize (Hprice i Hi). by rewrite Hpi in Hprice.
Qed.

Lemma no_negative_quantity_witness :
  ∃ rs s,
    compute_rows SAMPLE_INGREDIENTS frango_recipe 4 (Some (dec 200 1)) = Ok (rs, s) ∧
    Forall (λ row,
              0 ≤ row_PL_pessoa row ∧ 0 ≤ row_Peso_final_pessoa row ∧
              0 ≤ row_PL_total row ∧ 0 ≤ row_PB_total row ∧
              0 ≤ row_Peso_final_total row ∧ 0 ≤ row_Qtd_compra row ∧
              0 ≤ default 0 (row_Custo row))
           rs.
Proof.
  apply (no_negative_quantity SAMPLE_INGREDIENTS frango_recipe 4 (Some (dec 200 1))).
  - simpl. repeat constructor; discriminate.
  - lia.
  - unfold SAMPLE_INGREDIENTS. repeat constructor; discriminate.
Defined.

(** ** The catalog is read only at the ingredients of the recipe *)

Lemma aggregate_ingredients ing_idx people its :
  Forall (λ kr, Ingrediente kr.2 ∈ ingredient <$> its) (aggregate ing_idx people its).
Proof.
  unfold aggregate. induction its as [|it its IH] using rev_ind; [constructor|].
  rewrite foldl_snoc, fmap_app.
  set (agg := foldl (agg_step ing_idx people) [] its) in *.
  assert (IH' : Forall (λ kr, Ingrediente kr.2 ∈ (ingredient <$> its) ++ (ingredient <$> [it]))
                       agg).
  { eapply Forall_impl; [exact IH|]. intros kr H. apply elem_of_app. by left. }
  unfold agg_step. destruct (dict_get _ agg) as [r|].
  - by apply (dict_alter_Forall
                (λ _ v, Ingrediente v ∈ (ingredient <$> its) ++ (ingredient <$> [it]))).
  - apply Forall_app. split; [done|]. constructor; [|constructor].
    cbn. apply elem_of_app. right. by left.
Qed.

Lemma aggregate_ext (idx1 idx2 : gmap string Ingredient) people its :
  Forall (λ it, idx1 !! ingredient it = idx2 !! ingredient it) its →
  aggregate idx1 people its = aggregate idx2 people its.
Proof.
  unfold aggregate. induction its as [|it its IH] using rev_ind; [done|].
  intros Hall. apply Forall_app in Hall as [Hits Hit].
  rewrite Forall_singleton in Hit.
  rewrite !foldl_snoc, IH by done. unfold agg_step at 1 3. by rewrite Hit.
Qed.

(** X13: the result depends on the catalog only through the ingredients the
    recipe names: two catalogs that give the same ingredient (or none) for
    the ingredient name of every recipe line give the same rows and summary,
    so adding, changing or removing ingredients the recipe does not use
    changes nothing. *)
Theorem unused_ingredients_do_not_matter ingredients1 ingredients2 recipe people target :
  Forall (λ it, ingredient_map ingredients1 !! ingredient it =
                ingredient_map ingredients2 !! ingredient it) (items recipe) →
  compute_rows ingredients1 recipe people target =
  compute_rows ingredients2 recipe people target.
Proof.
  intros Hall. rewrite !compute_rows_ok.
  rewrite <-(aggregate_ext _ _ people (items recipe) Hall).
  set (idx1 := ingredient_map ingredients1). set (idx2 := ingredient_map ingredients2).
  set (agg := aggregate idx1 people (items recipe)).
  assert (rows_of idx1 (scale_val target (served_total_per_person_g agg)) agg =
          rows_of idx2 (scale_val target (served_total_per_person_g agg)) agg) as ->;
    [|done].
  unfold rows_of, dict_values. rewrite <-!list_fmap_compose.
  apply list_fmap_ext. intros _ kr Hkr%list_elem_of_lookup_2. cbn.
  pose proof (aggregate_ingredients idx1 people (items recipe)) as Hing.
  rewrite Forall_forall in Hing. specialize (Hing kr Hkr).
  apply list_elem_of_fmap in Hing as (it & Heq & Hin).
  rewrite Forall_forall in Hall. specialize (Hall it Hin). cbn in Hall.
  rewrite <-Heq in Hall. fold idx1 idx2 in Hall.
  unfold row_of, catalog_price. by rewrite Hall.
Qed.

Lemma unused_ingredients_do_not_matter_witness :
  compute_rows SAMPLE_INGREDIENTS chicken_only 4 None =
  compute_rows [sample "Peito de frango" "kg" (dec 90 100) (dec 2290 100)
                       (Some (dec 165 1)) None None] chicken_only 4 None.
Proof.
  apply unused_ingredients_do_not_matter.
  simpl. repeat constructor.
Defined.

(** ** [init_state] *)

(** X14: [init_state] sets all five keys of the session state, keeps the value
    of every key that was already set, and running it again changes nothing;
    a selected recipe that it sets is the name of the first recipe then in the
    state, or the empty string when there is none. *)
Theorem init_state_fills_missing_keys (st : SessionState) :
  ∃ ings recs sel p t,
    init_state st =
      {| ss_ingredients := Some ings; ss_recipes := Some recs;
         ss_selected_recipe := Some sel; ss_people := Some p;
         ss_target_served_per_person_g := Some t |} ∧
    (ss_ingredients st = Some ings ∨ ss_ingredients st = None) ∧
    (ss_recipes st = Some recs ∨ ss_recipes st = None) ∧
    (ss_selected_recipe st = Some sel ∨
     ss_selected_recipe st = None ∧ sel = default "" (recipe_name <$> head recs)) ∧
    (ss_people st = Some p ∨ ss_people st = None) ∧
    (ss_target_served_per_person_g st = Some t ∨
     ss_target_served_per_person_g st = None) ∧
    init_state (init_state st) = init_state st.
Proof.
  destruct st as [[ings|] [[|r recs]|] [sel|] [p|] [t|]];
    eexists _, _, _, _, _; (split; [reflexivity|]); cbn;
    repeat split;
    first [left; reflexivity | right; reflexivity | right; split; reflexivity].
Qed.

(** ** Gross and net quantity *)

Lemma aggregate_yield_le_1 ingredients people its :
  Forall (λ i, rl i ≤ 1) ingredients →
  Forall (λ kr, RL kr.2 ≤ 1) (aggregate (ingredient_map ingredients) people its).
Proof.
  intros Hrl. unfold aggregate.
  induction its as [|it its IH] using rev_ind; [constructor|].
  rewrite foldl_snoc.
  set (agg := foldl (agg_step (ingredient_map ingredients) people) [] its) in *.
  unfold agg_step. destruct (dict_get _ agg) as [r|].
  - by apply (dict_alter_Forall (λ _ v, RL v ≤ 1)).
  - apply Forall_app. split; [done|]. constructor; [|constructor]. cbn.
    destruct (ingredient_map ingredients !! ingredient it) as [i|] eqn:Hi; [|done].
    apply ingredient_map_elem_of in Hi. rewrite Forall_forall in Hrl. by apply Hrl.
Qed.

Lemma Qcdiv_ge_self (x y : Qc) : 0 ≤ x → 0 < y → y ≤ 1 → x ≤ x / y.
Proof.
  intros Hx Hy Hy1. apply (Qcmult_le_mono_pos_r _ _ y Hy).
  replace (x / y * y) with (x * 1) by (field; by apply Qc_pos_neq0).
  by apply Qcmult_le_mono_nonneg_l.
Qed.

(** X15: when no catalog yield exceeds 1, no recipe line has a negative net
    weight or cooking factor and the person count is not negative, the gross
    total of every row is at least its net total: the list never asks to buy
    less than the recipe needs, also for yields that are zero or negative and
    for ingredients missing from the catalog. *)
Theorem gross_at_least_net ingredients recipe people target :
  Forall (λ i, rl i ≤ 1) ingredients →
  Forall (λ it, 0 ≤ perPersonPL it ∧ 0 ≤ fc it) (items recipe) →
  (0 ≤ people)%Z →
  ∃ rs s,
    compute_rows ingredients recipe people target = Ok (rs, s) ∧
    Forall (λ row, row_PL_total row ≤ row_PB_total row) rs.
Proof.
  intros Hrl Hits Hp. eexists _, _. split; [apply compute_rows_ok|].
  set (ing_idx := ingredient_map ingredients).
  set (agg := aggregate ing_idx people (items recipe)).
  set (c := scale_val target (served_total_per_person_g agg)).
  assert (Hc : 0 ≤ c) by apply Qclt_le_weak, scale_val_pos.
  unfold rows_of, dict_values. rewrite <-list_fmap_compose. apply Forall_fmap.
  pose proof (aggregate_nonneg ing_idx people (items recipe) Hits) as Hagg.
  pose proof (aggregate_Pessoas ing_idx people (items recipe)) as Hpeople.
  pose proof (aggregate_yield_le_1 ingredients people (items recipe) Hrl) as Hy.
  fold ing_idx agg in Hagg, Hpeople, Hy. unfold dict_values in Hpeople.
  rewrite Forall_fmap in Hpeople.
  eapply Forall_impl;
    [apply Forall_and; split; [exact Hagg|apply Forall_and; split;
                                           [exact Hpeople|exact Hy]]|].
  intros [k r] [[Hw Hf] [Hn Hr]]. cbn in *.
  apply Qcdiv_ge_self.
  - apply Qcmult_nonneg_nonneg; [by apply Qcmult_nonneg_nonneg|].
    rewrite Hn, <-Z2Qc_inj_0. by apply (proj1 (Z2Qc_inj_le 0 people)).
  - apply eff_rl_pos.
  - unfold eff_rl. by case_decide.
Qed.

Lemma gross_at_least_net_witness :
  ∃ rs s,
    compute_rows SAMPLE_INGREDIENTS frango_recipe 4 None = Ok (rs, s) ∧
    Forall (λ row, row_PL_total row ≤ row_PB_total row) rs.
Proof.
  apply (gross_at_least_net SAMPLE_INGREDIENTS frango_recipe 4 None).
  - unfold SAMPLE_INGREDIENTS. repeat constructor; discriminate.
  - simpl. repeat constructor; discriminate.
  - lia.
Defined.

(** ** Renaming a recipe *)

Lemma NoDup_fmap_inj_elem {A B : Type} (f : A → B) (l : list A) (x y : A) :
  NoDup (f <$> l) → x ∈ l → y ∈ l → f x = f y → x = y.
Proof.
  induction l as [|a l IH]; [by intros _ H%elem_of_nil|].
  rewrite fmap_cons, NoDup_cons, !elem_of_cons.
  intros [Ha Hl] [->|Hx] [->|Hy] Hf; try done.
  - destruct Ha. rewrite Hf. by apply list_elem_of_fmap_2.
  - destruct Ha. rewrite <-Hf. by apply list_elem_of_fmap_2.
  - by apply IH.
Qed.

Lemma recipes_map_distinct (recipes : list Recipe) :
  NoDup (recipe_name <$> recipes) →
  recipes_map recipes = (λ r, (recipe_name r, r)) <$> recipes.
Proof.
  unfold recipes_map. induction recipes as [|r l IH] using rev_ind; [done|].
  rewrite fmap_app, NoDup_app. intros (Hl & Hr & _).
  rewrite foldl_snoc, IH by done. unfold dict_set.
  assert (dict_get (recipe_name r) ((λ r, (recipe_name r, r)) <$> l) = None) as ->.
  { apply dict_get_None. rewrite <-list_fmap_compose. intros Hin.
    apply (Hr _ Hin). by left. }
  by rewrite fmap_app.
Qed.

Lemma dict_remove_distinct (l : list Recipe) (n : string) :
  NoDup (recipe_name <$> l) →
  dict_remove n ((λ r, (recipe_name r, r)) <$> l) =
  (λ r, (recipe_name r, r)) <$> filter (λ r, recipe_name r ≠ n) l.
Proof.
  induction l as [|x l IH]; [done|].
  rewrite fmap_cons, NoDup_cons. intros [Hx Hl].
  cbn [fmap list_fmap dict_remove]. rewrite filter_cons.
  destruct (decide (recipe_name x = n)) as [<-|Hne].
  - rewrite decide_False by (by intros H). f_equal.
    clear IH Hl. induction l as [|y l IH]; [done|].
    rewrite fmap_cons, not_elem_of_cons in Hx. destruct Hx as [Hy Hx].
    rewrite filter_cons, decide_True by done. by rewrite <-IH.
  - rewrite decide_True by done. rewrite fmap_cons. f_equal. by apply IH.
Qed.

Lemma filter_other_names (l : list Recipe) (n : string) :
  n ∉ recipe_name <$> l → filter (λ x, recipe_name x ≠ n) l = l.
Proof.
  induction l as [|y l IH]; [done|].
  rewrite fmap_cons, not_elem_of_cons. intros [Hy Hl].
  rewrite filter_cons, decide_True by done. by rewrite IH.
Qed.

Lemma dict_get_distinct (l : list Recipe) (r : Recipe) :
  NoDup (recipe_name <$> l) → r ∈ l →
  dict_get (recipe_name r) ((λ x, (recipe_name x, x)) <$> l) = Some r.
Proof.
  induction l as [|x l IH]; [by intros _ H%elem_of_nil|].
  rewrite fmap_cons, NoDup_cons, elem_of_cons. intros [Hx Hl] Hr.
  cbn [fmap list_fmap dict_get]. case_decide as Hn.
  - destruct Hr as [->|Hr]; [done|]. destruct Hx. rewrite Hn.
    by apply list_elem_of_fmap_2.
  - destruct Hr as [->|Hr]; [done|]. by apply IH.
Qed.

Lemma dict_alter_distinct (f : Recipe → Recipe) (n : string) (l : list Recipe) :
  NoDup (recipe_name <$> l) →
  dict_values (dict_alter f n ((λ x, (recipe_name x, x)) <$> l)) =
  (λ x, if decide (recipe_name x = n) then f x else x) <$> l.
Proof.
  unfold dict_values. induction l as [|x l IH]; [done|].
  rewrite fmap_cons, NoDup_cons. intros [Hx Hl].
  cbn [fmap list_fmap dict_alter]. case_decide as Hn.
  - cbn [fmap list_fmap snd]. f_equal. rewrite <-list_fmap_compose.
    apply list_fmap_ext. intros _ y Hy%list_elem_of_lookup_2. cbn.
    rewrite decide_False; [done|]. intros Hyn. destruct Hx. rewrite Hn, <-Hyn.
    by apply list_elem_of_fmap_2.
  - cbn [fmap list_fmap snd]. f_equal. by apply IH.
Qed.

Lemma length_filter_other_names (l : list Recipe) (r : Recipe) :
  NoDup (recipe_name <$> l) → r ∈ l →
  length (filter (λ x, recipe_name x ≠ recipe_name r) l) = pred (length l).
Proof.
  induction l as [|x l IH]; [by intros _ H%elem_of_nil|].
  rewrite fmap_cons, NoDup_cons, elem_of_cons. intros [Hx Hl] Hr.
  rewrite filter_cons. destruct (decide (recipe_name x = recipe_name r)) as [Hn|Hn].
  - rewrite decide_False by (by intros H).
    rewrite filter_other_names by (by rewrite <-Hn). done.
  - rewrite decide_True by done. destruct Hr as [->|Hr]; [done|].
    cbn [length pred]. rewrite IH by done. destruct l; [by apply elem_of_nil in Hr|done].
Qed.

(** X16: in a list of recipes with distinct names, saving for the selected
    recipe a name that is not empty after stripping and that no other recipe
    has keeps every other recipe, unchanged and in order, puts the renamed
    recipe, with its lines, at the end of the list, and selects the new
    name. *)
Theorem save_name_keeps_other_recipes (strip : string → string)
    (recipes : list Recipe) (r : Recipe) (new_name : string) :
  NoDup (recipe_name <$> recipes) →
  r ∈ recipes →
  strip new_name ≠ "" →
  strip new_name ∉ recipe_name <$> filter (λ x, recipe_name x ≠ recipe_name r) recipes →
  save_name strip recipes (recipe_name r) new_name =
  (filter (λ x, recipe_name x ≠ recipe_name r) recipes
     ++ [{| recipe_name := strip new_name; items := items r |}],
   strip new_name).
Proof.
  intros Hnd Hr Hne Hfresh. unfold save_name.
  rewrite decide_False by done. rewrite recipes_map_distinct by done.
  rewrite dict_get_distinct by done. cbn [recipe_name items].
  rewrite dict_remove_distinct by done. unfold dict_set.
  assert (dict_get (strip new_name)
            ((λ r0, (recipe_name r0, r0)) <$>
               filter (λ x, recipe_name x ≠ recipe_name r) recipes) = None) as ->.
  { apply dict_get_None. by rewrite <-list_fmap_compose. }
  unfold dict_values. rewrite fmap_app, <-list_fmap_compose.
  f_equal. f_equal. apply list_fmap_id.
Qed.

Lemma save_name_keeps_other_recipes_witness :
  save_name (λ s, s) SAMPLE_RECIPES (recipe_name frango_recipe) "Frango" =
  (filter (λ x, recipe_name x ≠ recipe_name frango_recipe) SAMPLE_RECIPES
     ++ [{| recipe_name := "Frango"; items := items frango_recipe |}],
   "Frango").
Proof.
  apply (save_name_keeps_other_recipes (λ s, s) SAMPLE_RECIPES frango_recipe "Frango").
  - simpl. repeat constructor; rewrite ?not_elem_of_cons;
      repeat split; try discriminate; apply not_elem_of_nil.
  - left.
  - discriminate.
  - intros Hin. apply list_elem_of_fmap in Hin as (x & Hx & Hin).
    apply list_elem_of_filter in Hin as [_ Hin]. simpl in Hx.
    apply elem_of_cons in Hin as [->|Hin]; [discriminate Hx|].
    apply elem_of_cons in Hin as [->|Hin]; [discriminate Hx|].
    by apply elem_of_nil in Hin.
Defined.

(** X17: in a list of recipes with distinct names, saving for the selected
    recipe the name of another recipe of the list overwrites that other
    recipe: the renamed recipe, with the lines of the selected one, stands at
    the place of the overwritten recipe, the remaining recipes are unchanged
    and in order, and the list has one recipe less. *)
Theorem save_name_overwrites_namesake (strip : string → string)
    (recipes : list Recipe) (r q : Recipe) (new_name : string) :
  NoDup (recipe_name <$> recipes) →
  r ∈ recipes →
  q ∈ recipes →
  recipe_name q ≠ recipe_name r →
  recipe_name q ≠ "" →
  strip new_name = recipe_name q →
  let renamed := {| recipe_name := recipe_name q; items := items r |} in
  save_name strip recipes (recipe_name r) new_name =
  ((λ x, if decide (recipe_name x = recipe_name q) then renamed else x)
     <$> filter (λ x, recipe_name x ≠ recipe_name r) recipes,
   recipe_name q) ∧
  length (save_name strip recipes (recipe_name r) new_name).1 = pred (length recipes).
Proof.
  intros Hnd Hr Hq Hqr Hne Hnew renamed.
  assert (Hsave : save_name strip recipes (recipe_name r) new_name =
                  ((λ x, if decide (recipe_name x = recipe_name q) then renamed else x)
                     <$> filter (λ x, recipe_name x ≠ recipe_name r) recipes,
                   recipe_name q)).
  { unfold save_name. rewrite Hnew.
    rewrite decide_False by done. rewrite recipes_map_distinct by done.
    rewrite dict_get_distinct by done. cbn [recipe_name items]. fold renamed.
    rewrite dict_remove_distinct by done.
    set (l := filter (λ x, recipe_name x ≠ recipe_name r) recipes).
    assert (Hql : q ∈ l) by (by apply list_elem_of_filter).
    assert (Hndl : NoDup (recipe_name <$> l)).
    { apply NoDup_fmap_2_strong.
      - intros x y Hx%list_elem_of_filter Hy%list_elem_of_filter.
        apply (NoDup_fmap_inj_elem recipe_name recipes); tauto.
      - apply NoDup_filter. by eapply NoDup_fmap_1. }
    unfold dict_set. rewrite dict_get_distinct by done.
    by rewrite dict_alter_distinct. }
  split; [done|]. rewrite Hsave. cbn [fst].
  rewrite length_fmap. by apply length_filter_other_names.
Qed.

Lemma save_name_overwrites_namesake_witness :
  let renamed := {| recipe_name := recipe_name tilapia_recipe;
                    items := items frango_recipe |} in
  save_name (λ s, s) SAMPLE_RECIPES (recipe_name frango_recipe)
            (recipe_name tilapia_recipe) =
  ((λ x, if decide (recipe_name x = recipe_name tilapia_recipe) then renamed else x)
     <$> filter (λ x, recipe_name x ≠ recipe_name frango_recipe) SAMPLE_RECIPES,
   recipe_name tilapia_recipe) ∧
  length (save_name (λ s, s) SAMPLE_RECIPES (recipe_name frango_recipe)
                    (recipe_name tilapia_recipe)).1 = pred (length SAMPLE_RECIPES).
Proof.
  apply (save_name_overwrites_namesake (λ s, s) SAMPLE_RECIPES frango_recipe
           tilapia_recipe (recipe_name tilapia_recipe)).
  - simpl. repeat constructor; rewrite ?not_elem_of_cons;
      repeat split; try discriminate; apply not_elem_of_nil.
  - left.
  - right. left.
  - discriminate.
  - discriminate.
  - reflexivity.
Defined.
